(** * SFE_CC3000: the driver object of the SparkFun CC3000 library

    A shallow embedding of [SFE_CC3000.cpp].  The driver talks to the TI
    CC3000 through the vendor host driver (wlan, netapp, nvmem, socket) and is
    told about asynchronous events through a callback that writes a handful of
    [volatile] globals.  Neither the vendor driver nor the callback belongs to
    the file, so both are an environment [Env]: it answers every chip command
    and says what the callback did to the status globals while the driver was
    blocked.

    Integer widths are those of the AVR targets the file supports (the only
    ones on which [init] can succeed): [unsigned int] has 16 bits,
    [unsigned long] has 32 bits, [uint8_t] has 8 bits. *)

From Stdlib Require Import ZArith Lia String Bool.
From stdpp Require Import base list.

Local Open Scope Z_scope.

(** ** Machine integers *)

Definition u8 (x : Z) : Z := x mod 2 ^ 8.
Definition u16 (x : Z) : Z := x mod 2 ^ 16.
Definition u32 (x : Z) : Z := x mod 2 ^ 32.

(** ** Constants of the headers

    [common.h], [SFE_CC3000.h] and the [utility/] headers are not part of the
    file; the constants the code takes from them are the fields of a class. *)

Class Header := {
  CC3000_SUCCESS : Z;
  WLAN_SEC_UNSEC : Z;
  WLAN_SEC_WEP : Z;
  WLAN_SEC_WPA : Z;
  WLAN_SEC_WPA2 : Z;
  SCAN_NUM_CHANNELS : nat;
  SCAN_CHANNEL_TIMEOUT : Z;
  BSSID_LENGTH : nat;
  (** does the preprocessor see one of the ATmega8/168/328(P) macros *)
  AVR_ATMEGA : bool
}.

(** The values the library ships with. *)
Definition cc3000_header : Header := {|
  CC3000_SUCCESS := 0;
  WLAN_SEC_UNSEC := 0;
  WLAN_SEC_WEP := 1;
  WLAN_SEC_WPA := 2;
  WLAN_SEC_WPA2 := 3;
  SCAN_NUM_CHANNELS := 16;
  SCAN_CHANNEL_TIMEOUT := 2000;
  BSSID_LENGTH := 6;
  AVR_ATMEGA := true
|}.

(** ** Data *)

(** [ScanResult]: the buffer [wlan_ioctl_get_scan_results] fills; only the
    members the file reads. *)
Module ScanResult.
Record t := mk {
  num_networks : Z;
  is_valid : Z;
  rssi : Z;
  security_mode : Z;
  ssid_length : Z;
  ssid : list Z;
  bssid : list Z
}.
End ScanResult.

(** [AccessPointInfo]: what [getNextAccessPoint] hands to the caller. *)
Module AccessPointInfo.
Record t := mk {
  rssi : Z;
  security_mode : Z;
  ssid : list Z;
  bssid : list Z
}.
End AccessPointInfo.

(** [tNetappIpconfigRetArgs]: the chip's answer to [netapp_ipconfig]. *)
Module Ipconfig.
Record t := mk {
  aucIP : list Z;
  aucSubnetMask : list Z;
  aucDefaultGateway : list Z;
  aucDHCPServer : list Z;
  aucDNSServer : list Z;
  uaMacAddr : list Z;
  uaSSID : list Z
}.
End Ipconfig.

(** [ConnectionInfo]: what [getConnectionInfo] hands to the caller. *)
Module ConnectionInfo.
Record t := mk {
  ip_address : list Z;
  subnet_mask : list Z;
  default_gateway : list Z;
  dhcp_server : list Z;
  dns_server : list Z;
  mac_address : list Z;
  ssid : list Z
}.
End ConnectionInfo.

(** [IPAddr]: four bytes. *)
Module IPAddr.
Record t := mk { address : list Z }.
End IPAddr.

(** The members of the [SFE_CC3000] object.  The class is declared in
    [SFE_CC3000.h]; the two scan counters are [unsigned int] there. *)
Record Object := mkObject {
  is_initialized_ : bool;
  num_access_points_ : Z;
  access_point_count_ : Z;
  ap_scan_result_ : ScanResult.t;
  connection_info_ : Ipconfig.t
}.

(** The pin globals. *)
Record Pins := mkPins {
  g_int_pin : Z;
  g_int_num : Z;
  g_en_pin : Z;
  g_cs_pin : Z
}.

(** The [volatile] status globals and the ping report: written by the
    asynchronous callback, read by the driver. *)
Record Registry := mkRegistry {
  ulSmartConfigFinished : Z;
  ucStopSmartConfig : Z;
  ulCC3000Connected : Z;
  ulCC3000DHCP : Z;
  ulCC3000DHCP_configured : Z;
  OkToDoShutDown : Z;
  g_ping_report : list Z
}.

(** Which public function is running. *)
Inductive Caller :=
| in_init | in_getFirmwareVersion | in_getMacAddress | in_scanAccessPoints
| in_getNextAccessPoint | in_connect | in_disconnect | in_dnsLookup | in_ping.

(** Calls that return nothing: Arduino pins and SPI, [wlan_init],
    [wlan_start], [netapp_ipconfig]. *)
Inductive HwOp :=
| PinMode (pin : Z) (output : bool)
| DigitalWrite (pin : Z) (high : bool)
| SpiBegin
| SpiSetDataMode
| SpiSetBitOrder
| SpiSetClockDivider
| WlanInit
| WlanStart (patches : Z)
| NetappIpconfig.

(** Calls of the vendor driver that return a status.  An array cell that was
    never written is [None]. *)
Inductive Command :=
| NvmemReadSpVersion
| NvmemGetMacAddress
| SetScanParams (interval : Z) (channel_timeouts : list (option Z))
| GetScanResults (filter : Z)
| SetConnectionPolicy (should_connect_to_open_ap use_fast_connect use_profiles : Z)
| WlanConnect (sec : Z) (ssid : string) (ssid_len : Z) (key : option string) (key_len : Z)
| WlanDisconnect
| GetHostByName (hostname : string) (name_len : Z)
| NetappPingSend (ip attempts size timeout : Z).

Inductive Entry :=
| Hw (op : HwOp)
| Chip (who : Caller) (c : Command) (status : Z).

(** What lies outside the object: the millisecond clock behind [millis()],
    the number of the next time slice and the log of everything the driver
    did to the board and the chip. *)
Record Board := mkBoard {
  clock : Z;
  tick : nat;
  trace : list Entry
}.

Record State := mkState {
  this : Object;
  pins : Pins;
  reg : Registry;
  board : Board
}.

(** ** The environment

    Time passes, and interrupts are served, only while the driver is blocked:
    in [delay], in a blocking call of the vendor driver, and between two polls
    of a busy-wait loop that does nothing else.  Each of these is one time
    slice; the environment is indexed by the number of the slice. *)
Record Env := mkEnv {
  (** status returned by the command issued in this slice *)
  env_status : nat -> Command -> Z;
  (** what [wlan_ioctl_get_scan_results] leaves in the result buffer *)
  env_scan : nat -> ScanResult.t -> ScanResult.t;
  (** what [netapp_ipconfig] leaves in its argument *)
  env_ipconfig : nat -> Ipconfig.t -> Ipconfig.t;
  (** what [gethostbyname] leaves in its out parameter *)
  env_host : nat -> Z -> Z;
  (** what an nvmem read leaves in the caller's buffer *)
  env_bytes : nat -> list Z -> list Z;
  (** what the asynchronous callback did to the status globals *)
  env_irq : nat -> Registry -> Registry;
  (** milliseconds the slice takes, on top of a requested delay *)
  env_elapsed : nat -> nat
}.

(** ** Primitives *)

Definition set_this (o : Object) (st : State) : State :=
  mkState o (pins st) (reg st) (board st).

Definition set_pins (p : Pins) (st : State) : State :=
  mkState (this st) p (reg st) (board st).

Definition log (e : Entry) (st : State) : State :=
  mkState (this st) (pins st) (reg st)
          (mkBoard (clock (board st)) (tick (board st)) (trace (board st) ++ [e])).

(** One time slice of [ms] requested milliseconds. *)
Definition slice (env : Env) (ms : Z) (st : State) : State :=
  let n := tick (board st) in
  mkState (this st) (pins st) (env_irq env n (reg st))
          (mkBoard (clock (board st) + ms + Z.of_nat (env_elapsed env n))
                   (S n) (trace (board st))).

Definition delay (env : Env) (ms : Z) (st : State) : State := slice env ms st.

(** [millis()]: an [unsigned long]. *)
Definition millis (st : State) : Z := u32 (clock (board st)).

Definition hw (op : HwOp) (st : State) : State := log (Hw op) st.

(** A blocking call of the vendor driver. *)
Definition command (env : Env) (who : Caller) (c : Command) (st : State) : Z * State :=
  let r := env_status env (tick (board st)) c in
  (r, slice env 0 (log (Chip who c r) st)).

(** [strncpy(dst, src, n)]: copies up to the first NUL of [src] and pads with
    NUL up to [n] characters; [src = []] stands for "terminator seen".  Past
    the end of either array C leaves the behaviour undefined: here nothing is
    written past [dst], and [src] reads as NUL past its end. *)
Fixpoint strncpy (dst src : list Z) (n : nat) {struct n} : list Z :=
  match n with
  | O => dst
  | S n' =>
    match dst with
    | [] => []
    | _ :: dst' =>
      match src with
      | [] => 0 :: strncpy dst' [] n'
      | c :: src' =>
        if c =? 0 then 0 :: strncpy dst' [] n' else c :: strncpy dst' src' n'
      end
    end
  end.

(** [memcpy(dst, src, n)] on arrays at least [n] long. *)
Definition memcpy (dst src : list Z) (n : nat) : list Z :=
  take n src ++ drop n dst.

(** ** The driver *)

Section Driver.

Context {hdr : Header}.
Variable env : Env.

Definition succeeded (r : Z) : bool := r =? CC3000_SUCCESS.

(** The constructor runs on whatever the object's storage holds ([raw]): it
    sets the flag, the two scan counters, the status globals and the pins, and
    leaves [ap_scan_result_], [connection_info_] and [g_int_num] alone. *)
Definition SFE_CC3000 (int_pin en_pin cs_pin : Z) (raw : State) : State :=
  mkState
    (mkObject false 0 0 (ap_scan_result_ (this raw)) (connection_info_ (this raw)))
    (mkPins (u8 int_pin) (g_int_num (pins raw)) (u8 en_pin) (u8 cs_pin))
    (mkRegistry 0 0 0 0 0 0 (g_ping_report (reg raw)))
    (board raw).

(** The [switch] on [g_int_pin]. *)
Definition interrupt_of_pin (pin : Z) : option Z :=
  if pin =? 2 then Some 0 else if pin =? 3 then Some 1 else None.

Definition init (st : State) : bool * State :=
  if is_initialized_ (this st) then (true, st)
  else if negb AVR_ATMEGA then (false, st)
  else
    match interrupt_of_pin (g_int_pin (pins st)) with
    | None => (false, st)
    | Some num =>
      let p := pins st in
      let st := set_pins (mkPins (g_int_pin p) num (g_en_pin p) (g_cs_pin p)) st in
      let st := hw (PinMode (g_int_pin p) false) st in
      let st := hw (PinMode (g_en_pin p) true) st in
      let st := hw (PinMode (g_cs_pin p) true) st in
      let st := hw (DigitalWrite (g_en_pin p) false) st in
      let st := hw (DigitalWrite (g_cs_pin p) false) st in
      let st := hw SpiBegin st in
      let st := hw SpiSetDataMode st in
      let st := hw SpiSetBitOrder st in
      let st := hw SpiSetClockDivider st in
      let st := hw WlanInit st in
      let st := delay env 100 st in
      let st := slice env 0 (hw (WlanStart 0) st) in
      let o := this st in
      let st := set_this (mkObject true (num_access_points_ o) (access_point_count_ o)
                                   (ap_scan_result_ o) (connection_info_ o)) st in
      (true, st)
    end.

Definition getFirmwareVersion (fw_ver : list Z) (st : State) : bool * list Z * State :=
  if negb (is_initialized_ (this st)) then (false, fw_ver, st)
  else
    let fw_ver' := env_bytes env (tick (board st)) fw_ver in
    let '(r, st) := command env in_getFirmwareVersion NvmemReadSpVersion st in
    if negb (succeeded r) then (false, fw_ver', st) else (true, fw_ver', st).

Definition getMacAddress (mac_addr : list Z) (st : State) : bool * list Z * State :=
  if negb (is_initialized_ (this st)) then (false, mac_addr, st)
  else
    let mac_addr' := env_bytes env (tick (board st)) mac_addr in
    let '(r, st) := command env in_getMacAddress NvmemGetMacAddress st in
    if negb (succeeded r) then (false, mac_addr', st) else (true, mac_addr', st).

(** [wlan_ioctl_get_scan_results(0, &ap_scan_result_)]. *)
Definition wlan_ioctl_get_scan_results (who : Caller) (st : State) : Z * State :=
  let o := this st in
  let buf := env_scan env (tick (board st)) (ap_scan_result_ o) in
  let st := set_this (mkObject (is_initialized_ o) (num_access_points_ o)
                               (access_point_count_ o) buf (connection_info_ o)) st in
  command env who (GetScanResults 0) st.

(** The loop over [channel_timeouts]: [SCAN_NUM_CHANNELS] rounds, each of which
    assigns to cell 0.  The array is a local without initialiser. *)
Definition channel_timeouts : list (option Z) :=
  foldl (fun a (_ : nat) => <[0%nat := Some SCAN_CHANNEL_TIMEOUT]> a)
        (replicate SCAN_NUM_CHANNELS None)
        (seq 0 SCAN_NUM_CHANNELS).

Definition set_counters (num count : Z) (st : State) : State :=
  let o := this st in
  set_this (mkObject (is_initialized_ o) num count
                     (ap_scan_result_ o) (connection_info_ o)) st.

Definition scanAccessPoints (scan_time : Z) (st : State) : bool * State :=
  if negb (is_initialized_ (this st)) then (false, st)
  else
    let '(r, st) := command env in_scanAccessPoints
                            (SetScanParams scan_time channel_timeouts) st in
    if negb (succeeded r) then (false, st)
    else
      let st := delay env (u16 (scan_time + 500)) st in
      let st := set_counters 0 0 st in
      let '(r, st) := wlan_ioctl_get_scan_results in_scanAccessPoints st in
      if negb (succeeded r) then (false, st)
      else
        let st := set_counters (u16 (ScanResult.num_networks (ap_scan_result_ (this st))))
                               (access_point_count_ (this st)) st in
        let '(r, st) := command env in_scanAccessPoints
                                (SetScanParams 0 channel_timeouts) st in
        if negb (succeeded r) then (false, st) else (true, st).

(** The four assignments to [ap_info]. *)
Definition fill_ap_info (r : ScanResult.t) (ap_info : AccessPointInfo.t) : AccessPointInfo.t :=
  let len := Z.to_nat (ScanResult.ssid_length r) in
  AccessPointInfo.mk
    (ScanResult.rssi r)
    (ScanResult.security_mode r)
    (<[len := 0]> (strncpy (AccessPointInfo.ssid ap_info) (ScanResult.ssid r) len))
    (memcpy (AccessPointInfo.bssid ap_info) (ScanResult.bssid r) BSSID_LENGTH).

Definition getNextAccessPoint (ap_info : AccessPointInfo.t) (st : State)
  : bool * AccessPointInfo.t * State :=
  if negb (is_initialized_ (this st)) then (false, ap_info, st)
  else if ScanResult.is_valid (ap_scan_result_ (this st)) =? 0 then (false, ap_info, st)
  else if num_access_points_ (this st) <=? access_point_count_ (this st)
       then (false, ap_info, st)
  else
    let ap_info := fill_ap_info (ap_scan_result_ (this st)) ap_info in
    let '(r, st) := wlan_ioctl_get_scan_results in_getNextAccessPoint st in
    if negb (succeeded r) then (false, ap_info, st)
    else
      let st := set_counters (num_access_points_ (this st))
                             (u16 (access_point_count_ (this st) + 1)) st in
      (true, ap_info, st).

Definition getDHCPStatus (st : State) : bool := ulCC3000DHCP (reg st) =? 1.

Definition getConnectionStatus (st : State) : bool := ulCC3000Connected (reg st) =? 1.

Definition valid_security (security : Z) : bool :=
  (security =? WLAN_SEC_UNSEC) || (security =? WLAN_SEC_WEP) ||
  (security =? WLAN_SEC_WPA) || (security =? WLAN_SEC_WPA2).

Definition strlen (s : string) : Z := Z.of_nat (String.length s).

(** The two forms of the [wlan_connect] call. *)
Definition wlan_connect (security : Z) (ssid password : string) (st : State) : Z * State :=
  if security =? WLAN_SEC_UNSEC
  then command env in_connect (WlanConnect WLAN_SEC_UNSEC ssid (strlen ssid) None 0) st
  else command env in_connect
               (WlanConnect security ssid (strlen ssid) (Some password) (strlen password)) st.

(** [timeout != 0 && (millis() - time) > timeout], in [unsigned long]. *)
Definition timed_out (timeout time : Z) (st : State) : bool :=
  negb (timeout =? 0) && (timeout <? u32 (millis st - time)).

(** How a loop of [connect] is left: by falling out of it, or by the
    [return false] of the timeout check. *)
Inductive Exit := Proceed | TimedOut.

(** The retry loop.  [None]: the loop is still running when the fuel is used
    up. *)
Fixpoint connect_loop (fuel : nat) (security : Z) (ssid password : string)
         (timeout time : Z) (st : State) : option (Exit * State) :=
  match fuel with
  | O => None
  | S fuel =>
    if getConnectionStatus st then Some (Proceed, st)
    else
      let st := delay env 10 st in
      let '(r, st) := wlan_connect security ssid password st in
      if succeeded r then Some (Proceed, st)
      else if timed_out timeout time st then Some (TimedOut, st)
      else connect_loop fuel security ssid password timeout time st
  end.

(** The wait for DHCP: a busy-wait, one time slice between two polls. *)
Fixpoint dhcp_loop (fuel : nat) (timeout time : Z) (st : State) : option (Exit * State) :=
  match fuel with
  | O => None
  | S fuel =>
    if getDHCPStatus st then Some (Proceed, st)
    else if timed_out timeout time st then Some (TimedOut, st)
    else dhcp_loop fuel timeout time (slice env 0 st)
  end.

(** [netapp_ipconfig(&connection_info_)]. *)
Definition netapp_ipconfig (st : State) : State :=
  let o := this st in
  let info := env_ipconfig env (tick (board st)) (connection_info_ o) in
  let st := set_this (mkObject (is_initialized_ o) (num_access_points_ o)
                               (access_point_count_ o) (ap_scan_result_ o) info) st in
  slice env 0 (hw NetappIpconfig st).

Definition connect (fuel : nat) (ssid : string) (security : Z) (password : string)
           (timeout : Z) (st : State) : option (bool * State) :=
  if negb (is_initialized_ (this st)) then Some (false, st)
  else if getDHCPStatus st then Some (false, st)
  else if negb (valid_security security) then Some (false, st)
  else
    let '(r, st) := command env in_connect (SetConnectionPolicy 0 0 0) st in
    if negb (succeeded r) then Some (false, st)
    else
      let time := millis st in
      match connect_loop fuel security ssid password timeout time st with
      | None => None
      | Some (TimedOut, st) => Some (false, st)
      | Some (Proceed, st) =>
        match dhcp_loop fuel timeout time st with
        | None => None
        | Some (TimedOut, st) => Some (false, st)
        | Some (Proceed, st) => Some (true, netapp_ipconfig st)
        end
      end.

Definition disconnect (st : State) : bool * State :=
  if negb (is_initialized_ (this st)) then (false, st)
  else
    let '(r, st) := command env in_disconnect WlanDisconnect st in
    if succeeded r then (true, st) else (false, st).

(** The four assignments to [ip_address.address]. *)
Definition fill_ip_address (ret_ip_addr : Z) (ip_address : IPAddr.t) : IPAddr.t :=
  let a := IPAddr.address ip_address in
  let a := <[3%nat := Z.land ret_ip_addr 255]> a in
  let a := <[2%nat := Z.land (Z.shiftr ret_ip_addr 8) 255]> a in
  let a := <[1%nat := Z.land (Z.shiftr ret_ip_addr 16) 255]> a in
  let a := <[0%nat := Z.land (Z.shiftr ret_ip_addr 24) 255]> a in
  IPAddr.mk a.

(** [gethostbyname] reports through an [int] that the code only tests against
    zero, and through the [unsigned long] out parameter [ret_ip_addr], which
    starts as 0. *)
Definition dnsLookup (hostname : string) (ip_address : IPAddr.t) (st : State)
  : bool * IPAddr.t * State :=
  if negb (is_initialized_ (this st)) then (false, ip_address, st)
  else if negb (getConnectionStatus st) then (false, ip_address, st)
  else if negb (getDHCPStatus st) then (false, ip_address, st)
  else
    let ret_ip_addr := u32 (env_host env (tick (board st)) 0) in
    let '(r, st) := command env in_dnsLookup (GetHostByName hostname (strlen hostname)) st in
    if r =? 0 then (false, ip_address, st)
    else (true, fill_ip_address ret_ip_addr ip_address, st).

Definition byte_at (a : list Z) (i : nat) : Z := nth i a 0.

Definition ping (ip_address : IPAddr.t) (ping_report : list Z)
           (attempts size timeout : Z) (st : State) : bool * list Z * State :=
  if negb (is_initialized_ (this st)) then (false, ping_report, st)
  else if negb (getConnectionStatus st) then (false, ping_report, st)
  else if negb (getDHCPStatus st) then (false, ping_report, st)
  else
    let a := IPAddr.address ip_address in
    let ip_addr :=
      u32 (Z.lor (Z.lor (Z.lor (byte_at a 0) (Z.shiftl (byte_at a 1) 8))
                        (Z.shiftl (byte_at a 2) 16))
                 (Z.shiftl (byte_at a 3) 24)) in
    let '(r, st) := command env in_ping (NetappPingSend ip_addr attempts size timeout) st in
    if negb (succeeded r) then (false, ping_report, st)
    else
      let st := delay env (u16 (u16 (timeout * attempts) * 2)) st in
      (true, memcpy ping_report (g_ping_report (reg st)) (length ping_report), st).

(** One of the reversing loops: [max = sizeof src] in a [uint8_t], then
    [dst[i] = src[max - 1 - i]] for [i] from 0 below [max]. *)
Definition reverse_copy (dst src : list Z) : list Z :=
  let max := u8 (Z.of_nat (length src)) in
  foldl (fun d (i : nat) => <[i := byte_at src (Z.to_nat (max - 1 - Z.of_nat i))]> d)
        dst (seq 0 (Z.to_nat max)).

Definition getConnectionInfo (info : ConnectionInfo.t) (st : State)
  : bool * ConnectionInfo.t :=
  if negb (is_initialized_ (this st)) then (false, info)
  else if negb (getConnectionStatus st) then (false, info)
  else if negb (getDHCPStatus st) then (false, info)
  else
    let c := connection_info_ (this st) in
    (true,
     ConnectionInfo.mk
       (reverse_copy (ConnectionInfo.ip_address info) (Ipconfig.aucIP c))
       (reverse_copy (ConnectionInfo.subnet_mask info) (Ipconfig.aucSubnetMask c))
       (reverse_copy (ConnectionInfo.default_gateway info) (Ipconfig.aucDefaultGateway c))
       (reverse_copy (ConnectionInfo.dhcp_server info) (Ipconfig.aucDHCPServer c))
       (reverse_copy (ConnectionInfo.dns_server info) (Ipconfig.aucDNSServer c))
       (reverse_copy (ConnectionInfo.mac_address info) (Ipconfig.uaMacAddr c))
       (memcpy (ConnectionInfo.ssid info) (Ipconfig.uaSSID c) 32)).

End Driver.

(** ** Sequences of calls *)

Section Sessions.

Context {hdr : Header}.
Variable env : Env.

(** [n] calls of [getNextAccessPoint] in a row on the same [ap_info]; the
    results in call order. *)
Fixpoint drain (n : nat) (ap_info : AccessPointInfo.t) (st : State)
  : list bool * AccessPointInfo.t * State :=
  match n with
  | O => ([], ap_info, st)
  | S n =>
    let '(ok, ap_info, st) := getNextAccessPoint env ap_info st in
    let '(oks, ap_info, st) := drain n ap_info st in
    (ok :: oks, ap_info, st)
  end.

(** What an application can do with the object once it is constructed. *)
Inductive Call :=
| call_init
| call_getFirmwareVersion (fw_ver : list Z)
| call_getMacAddress (mac_addr : list Z)
| call_scanAccessPoints (scan_time : Z)
| call_getNextAccessPoint (ap_info : AccessPointInfo.t)
| call_connect (fuel : nat) (ssid : string) (security : Z) (password : string) (timeout : Z)
| call_disconnect
| call_dnsLookup (hostname : string) (ip_address : IPAddr.t)
| call_ping (ip_address : IPAddr.t) (ping_report : list Z) (attempts size timeout : Z)
| call_getConnectionInfo (info : ConnectionInfo.t)
(** the application does something else for a while *)
| call_nothing.

(** The state a call leaves; [None] when [connect] does not return within its
    fuel. *)
Definition after (c : Call) (st : State) : option State :=
  match c with
  | call_init => Some (snd (init env st))
  | call_getFirmwareVersion fw_ver => Some (snd (getFirmwareVersion env fw_ver st))
  | call_getMacAddress mac_addr => Some (snd (getMacAddress env mac_addr st))
  | call_scanAccessPoints scan_time => Some (snd (scanAccessPoints env scan_time st))
  | call_getNextAccessPoint ap_info => Some (snd (getNextAccessPoint env ap_info st))
  | call_connect fuel ssid security password timeout =>
    option_map snd (connect env fuel ssid security password timeout st)
  | call_disconnect => Some (snd (disconnect env st))
  | call_dnsLookup hostname ip_address => Some (snd (dnsLookup env hostname ip_address st))
  | call_ping ip_address ping_report attempts size timeout =>
    Some (snd (ping env ip_address ping_report attempts size timeout st))
  | call_getConnectionInfo _ => Some st
  | call_nothing => Some (slice env 0 st)
  end.

(** The states of an object from its construction on; the log starts empty. *)
Inductive reachable : State -> Prop :=
| reach_new int_pin en_pin cs_pin raw :
    trace (board raw) = [] ->
    reachable (SFE_CC3000 int_pin en_pin cs_pin raw)
| reach_call c st st' :
    reachable st -> after c st = Some st' -> reachable st'.

(** The scan counters are [unsigned int]. *)
Definition counters_in_range (st : State) : Prop :=
  0 <= access_point_count_ (this st) < 2 ^ 16 /\
  0 <= num_access_points_ (this st) < 2 ^ 16.

(** Some [scanAccessPoints] call got its first result from the chip; what
    that call answered in the end is another matter, the stop command comes
    after the fetch. *)
Definition scan_fetched (st : State) : Prop :=
  In (Chip in_scanAccessPoints (GetScanResults 0) CC3000_SUCCESS) (trace (board st)).

(** What the scan session promises: retrieved never exceeds the total, and a
    positive total comes from a scan. *)
Definition session_ok (st : State) : Prop :=
  counters_in_range st /\
  access_point_count_ (this st) <= num_access_points_ (this st) /\
  (0 < num_access_points_ (this st) -> scan_fetched st).

(** [st'] has the scan counters of [st] and a log that extends the one of
    [st]. *)
Definition session_kept (st st' : State) : Prop :=
  num_access_points_ (this st') = num_access_points_ (this st) /\
  access_point_count_ (this st') = access_point_count_ (this st) /\
  exists more, trace (board st') = trace (board st) ++ more.

(** The state in which [connect] enters its retry loop: right after the
    connection policy command. *)
Definition loop_entry (st : State) : State :=
  snd (command env in_connect (SetConnectionPolicy 0 0 0) st).

End Sessions.

(** ** Sample boards, chips and callers *)

Definition blank_scan_result : ScanResult.t :=
  ScanResult.mk 0 0 0 0 0 (replicate 32 0) (replicate 6 0).

Definition blank_ipconfig : Ipconfig.t :=
  Ipconfig.mk (replicate 4 0) (replicate 4 0) (replicate 4 0) (replicate 4 0)
              (replicate 4 0) (replicate 6 0) (replicate 32 0).

Definition blank_ap_info : AccessPointInfo.t :=
  AccessPointInfo.mk 0 0 (replicate 33 0) (replicate 6 0).

(** Memory, clock and log at power on. *)
Definition power_on : State :=
  mkState (mkObject false 0 0 blank_scan_result blank_ipconfig)
          (mkPins 0 0 0 0)
          (mkRegistry 0 0 0 0 0 0 (replicate 20 0))
          (mkBoard 0 0 []).

(** A chip that accepts every command, changes no buffer, raises no event and
    answers within the millisecond. *)
Definition quiet_chip : Env :=
  mkEnv (fun _ _ => 0) (fun _ b => b) (fun _ b => b) (fun _ a => a) (fun _ b => b)
        (fun _ r => r) (fun _ => 0%nat).

(** The object of the library's examples, interrupt on pin 2, after [init]. *)
Definition ready (env : Env) : State :=
  snd (init (hdr := cc3000_header) env (SFE_CC3000 2 7 10 power_on)).

(** A record as the chip reports it: [left] networks, validity flag, SSID
    "lab". *)
Definition lab_record (left valid : Z) : ScanResult.t :=
  ScanResult.mk left valid 54 3 3 ([108; 97; 98] ++ replicate 29 0) [0; 17; 34; 51; 68; 85].

(** A chip that has seen two networks but marks every record after the first
    as invalid.  The first fetch of a scan happens in slice 4 of [ready]. *)
Definition stale_records_chip : Env :=
  mkEnv (fun _ _ => 0)
        (fun n _ => if (n <=? 4)%nat then lab_record 2 1 else lab_record 2 0)
        (fun _ b => b) (fun _ a => a) (fun _ b => b)
        (fun _ r => r) (fun _ => 0%nat).

(** A chip that has seen three networks and reports valid records. *)
Definition three_networks_chip : Env :=
  mkEnv (fun _ _ => 0)
        (fun _ _ => lab_record 3 1)
        (fun _ b => b) (fun _ a => a) (fun _ b => b)
        (fun _ r => r) (fun _ => 0%nat).

(** A chip whose result fetches fail from slice 5 on. *)
Definition failing_fetch_chip : Env :=
  mkEnv (fun n c => match c with
                    | GetScanResults _ => if (5 <=? n)%nat then 1 else 0
                    | _ => 0
                    end)
        (fun _ _ => lab_record 3 1)
        (fun _ b => b) (fun _ a => a) (fun _ b => b)
        (fun _ r => r) (fun _ => 0%nat).

(** A chip that has seen three networks, reports valid records and accepts
    everything but the scan configuration with interval 0, the command that
    stops a scan. *)
Definition stop_rejecting_chip : Env :=
  mkEnv (fun _ c => match c with
                    | SetScanParams interval _ => if interval =? 0 then 1 else 0
                    | _ => 0
                    end)
        (fun _ _ => lab_record 3 1)
        (fun _ b => b) (fun _ a => a) (fun _ b => b)
        (fun _ r => r) (fun _ => 0%nat).

Definition set_flags (connected dhcp : Z) (r : Registry) : Registry :=
  mkRegistry (ulSmartConfigFinished r) (ucStopSmartConfig r) connected dhcp
             (ulCC3000DHCP_configured r) (OkToDoShutDown r) (g_ping_report r).

(** A chip that accepts the connection command and leaves the connected flag
    down; the callback raises the DHCP flag while the driver polls (slice 5
    of [ready]) and, on a disconnect during the configuration query that
    follows (slice 6), clears both flags. *)
Definition link_drop_chip : Env :=
  mkEnv (fun _ _ => 0) (fun _ b => b) (fun _ b => b) (fun _ a => a) (fun _ b => b)
        (fun n r => if (n =? 5)%nat then set_flags (ulCC3000Connected r) 1 r
                    else if (n =? 6)%nat then set_flags 0 0 r
                    else r)
        (fun _ => 1%nat).

(** A chip that rejects every connection attempt, after 3 ms each. *)
Definition rejecting_chip : Env :=
  mkEnv (fun _ c => match c with WlanConnect _ _ _ _ _ => 1 | _ => 0 end)
        (fun _ b => b) (fun _ b => b) (fun _ a => a) (fun _ b => b)
        (fun _ r => r) (fun _ => 3%nat).

(** A chip connected with a lease, resolving every name to 192.168.1.10. *)
Definition resolving_chip : Env :=
  mkEnv (fun _ c => match c with GetHostByName _ _ => 1 | _ => 0 end)
        (fun _ b => b) (fun _ b => b) (fun _ _ => 3232235786) (fun _ b => b)
        (fun _ r => set_flags 1 1 r) (fun _ => 1%nat).

(** ** What a call leaves behind *)

(** The callback over the slices [n], ..., [n + k - 1], oldest first. *)
Fixpoint irqs (env : Env) (n k : nat) (r : Registry) : Registry :=
  match k with
  | O => r
  | S k => irqs env (S n) k (env_irq env n r)
  end.

(** The milliseconds those slices take by themselves. *)
Fixpoint slices_time (env : Env) (n k : nat) : Z :=
  match k with
  | O => 0
  | S k => Z.of_nat (env_elapsed env n) + slices_time env (S n) k
  end.

(** From [st] to [st'] some slices went by: the status globals are what the
    callback made of them, slice after slice, and the clock moved on by at
    least the time of those slices. *)
Definition passes (env : Env) (st st' : State) : Prop :=
  exists k : nat,
    tick (board st') = (tick (board st) + k)%nat /\
    reg st' = irqs env (tick (board st)) k (reg st) /\
    clock (board st) + slices_time env (tick (board st)) k <= clock (board st').

(** The bytes of a 32-bit value in the opposite order. *)
Definition bswap32 (v : Z) : Z :=
  (v mod 256) * 2 ^ 24 + (v / 2 ^ 8 mod 256) * 2 ^ 16 +
  (v / 2 ^ 16 mod 256) * 2 ^ 8 + v / 2 ^ 24 mod 256.

(** The array sizes of [tNetappIpconfigRetArgs] and [ConnectionInfo]. *)
Definition ipconfig_shape (c : Ipconfig.t) : Prop :=
  length (Ipconfig.aucIP c) = 4%nat /\
  length (Ipconfig.aucSubnetMask c) = 4%nat /\
  length (Ipconfig.aucDefaultGateway c) = 4%nat /\
  length (Ipconfig.aucDHCPServer c) = 4%nat /\
  length (Ipconfig.aucDNSServer c) = 4%nat /\
  length (Ipconfig.uaMacAddr c) = 6%nat /\
  length (Ipconfig.uaSSID c) = 32%nat.

Definition info_shape (i : ConnectionInfo.t) : Prop :=
  length (ConnectionInfo.ip_address i) = 4%nat /\
  length (ConnectionInfo.subnet_mask i) = 4%nat /\
  length (ConnectionInfo.default_gateway i) = 4%nat /\
  length (ConnectionInfo.dhcp_server i) = 4%nat /\
  length (ConnectionInfo.dns_server i) = 4%nat /\
  length (ConnectionInfo.mac_address i) = 6%nat /\
  length (ConnectionInfo.ssid i) = 32%nat.

(** The network configuration of the samples, as the chip stores it. *)
Definition home_ipconfig : Ipconfig.t :=
  Ipconfig.mk [10; 1; 168; 192] [0; 255; 255; 255] [1; 1; 168; 192] [1; 1; 168; 192]
              [8; 8; 4; 4] [85; 68; 51; 34; 17; 0] ([108; 97; 98] ++ replicate 29 0).

Definition blank_info : ConnectionInfo.t :=
  ConnectionInfo.mk (replicate 4 0) (replicate 4 0) (replicate 4 0) (replicate 4 0)
                    (replicate 4 0) (replicate 6 0) (replicate 32 0).

(** A chip that is associated and has its lease from slice 2 on, accepts every
    command and answers the configuration query with [home_ipconfig]. *)
Definition home_chip : Env :=
  mkEnv (fun _ _ => 0) (fun _ b => b) (fun _ _ => home_ipconfig) (fun _ a => a)
        (fun _ b => b)
        (fun n r => if (2 <=? n)%nat then set_flags 1 1 r else r)
        (fun _ => 1%nat).

(** A chip that accepts every command and never raises a flag; a slice takes
    one millisecond. *)
Definition no_lease_chip : Env :=
  mkEnv (fun _ _ => 0) (fun _ b => b) (fun _ b => b) (fun _ a => a) (fun _ b => b)
        (fun _ r => r) (fun _ => 1%nat).

(** A chip that accepts the scan configuration and fails the result fetch. *)
Definition no_results_chip : Env :=
  mkEnv (fun _ c => match c with GetScanResults _ => 1 | _ => 0 end)
        (fun _ _ => lab_record 3 1)
        (fun _ b => b) (fun _ a => a) (fun _ b => b)
        (fun _ r => r) (fun _ => 0%nat).

(** The object of the samples once [connect] has answered on [home_chip]. *)
Definition at_home : State :=
  match connect (hdr := cc3000_header) home_chip 5 "lab" 3 "secret" 5000
                (ready home_chip) with
  | Some (_, st) => st
  | None => power_on
  end.

(** An object whose interrupt pin cannot interrupt, after a call of [init]
    and a call of [scanAccessPoints]. *)
Definition wrong_pin : State :=
  snd (scanAccessPoints (hdr := cc3000_header) quiet_chip 4000
         (snd (init (hdr := cc3000_header) quiet_chip (SFE_CC3000 5 7 10 power_on)))).

(** ** Properties *)

Section Properties.

Context {hdr : Header}.
Variable env : Env.

Lemma succeeded_true r : succeeded r = true <-> r = CC3000_SUCCESS.
Proof. unfold succeeded. apply Z.eqb_eq. Qed.

Lemma succeeded_false r : succeeded r = false <-> r <> CC3000_SUCCESS.
Proof. unfold succeeded. apply Z.eqb_neq. Qed.

(** *** [init] *)

Lemma init_true_initialized st st' :
  init env st = (true, st') -> is_initialized_ (this st') = true.
Proof.
  unfold init. destruct (is_initialized_ (this st)) eqn:Hi.
  - intros [= <-]. exact Hi.
  - destruct (negb AVR_ATMEGA); [discriminate |].
    destruct (interrupt_of_pin _); [| discriminate].
    intros [= <-]. reflexivity.
Qed.

(** C9.  On an object that is already initialized, [init] answers [true] and
    returns the state it was given: no global, no member, no pin, no bus and
    no chip call, no time spent. *)
Theorem init_idempotent (st : State) :
  is_initialized_ (this st) = true -> init env st = (true, st).
Proof. intros Hi. unfold init. rewrite Hi. reflexivity. Qed.

(** *** [connect]: the guards *)

Lemma valid_security_false security :
  valid_security security = false <->
  security <> WLAN_SEC_UNSEC /\ security <> WLAN_SEC_WEP /\
  security <> WLAN_SEC_WPA /\ security <> WLAN_SEC_WPA2.
Proof.
  unfold valid_security. rewrite !orb_false_iff, !Z.eqb_neq. tauto.
Qed.

(** C5.  Called on an object that is not initialized, or while the DHCP flag
    is up, or with a security mode that is none of the four constants,
    [connect] answers [false] whatever the fuel and returns the state it was
    given: nothing is logged, so no command went to the chip. *)
Theorem connect_guard_untouched fuel ssid security password timeout (st : State) :
  is_initialized_ (this st) = false \/
  ulCC3000DHCP (reg st) = 1 \/
  (security <> WLAN_SEC_UNSEC /\ security <> WLAN_SEC_WEP /\
   security <> WLAN_SEC_WPA /\ security <> WLAN_SEC_WPA2) ->
  connect env fuel ssid security password timeout st = Some (false, st).
Proof.
  intros H. unfold connect.
  destruct (is_initialized_ (this st)) eqn:Hi; simpl; [| reflexivity].
  destruct (getDHCPStatus st) eqn:Hd; [reflexivity |].
  destruct (valid_security security) eqn:Hv; simpl; [| reflexivity].
  exfalso. destruct H as [H | [H | H]].
  - discriminate.
  - unfold getDHCPStatus in Hd. apply Z.eqb_neq in Hd. contradiction.
  - apply valid_security_false in H. congruence.
Qed.

(** *** [scanAccessPoints]: the channel timeouts *)

Lemma foldl_insert_head {A} (x : A) (rounds : list nat) (a : list A) :
  rounds <> [] ->
  foldl (fun a (_ : nat) => <[0%nat := x]> a) a rounds = <[0%nat := x]> a.
Proof.
  revert a. induction rounds as [| i rounds IH]; intros a Hne; [done |].
  simpl. destruct rounds as [| j rounds]; [done |].
  rewrite IH by done. apply list_insert_insert_eq.
Qed.

Lemma channel_timeouts_cells :
  channel_timeouts = <[0%nat := Some SCAN_CHANNEL_TIMEOUT]> (replicate SCAN_NUM_CHANNELS None).
Proof.
  unfold channel_timeouts. destruct SCAN_NUM_CHANNELS as [| n]; [done |].
  apply foldl_insert_head. done.
Qed.

Lemma channel_timeouts_unset (i : nat) :
  (0 < i < SCAN_NUM_CHANNELS)%nat -> channel_timeouts !! i = Some None.
Proof.
  intros Hi. rewrite channel_timeouts_cells.
  rewrite list_lookup_insert_ne by lia.
  apply lookup_replicate_2. lia.
Qed.

(** C2.  The array [scanAccessPoints] hands to the scan configuration command
    has cell 0 set to [SCAN_CHANNEL_TIMEOUT]; every other cell is as the stack
    left it, the loop having written cell 0 in each round. *)
Theorem scanAccessPoints_timeouts_unset scan_time (st : State) :
  is_initialized_ (this st) = true ->
  exists a r rest,
    trace (board (snd (scanAccessPoints env scan_time st))) =
      trace (board st) ++ Chip in_scanAccessPoints (SetScanParams scan_time a) r :: rest /\
    length a = SCAN_NUM_CHANNELS /\
    forall i : nat, (0 < i < SCAN_NUM_CHANNELS)%nat -> a !! i = Some None.
Proof.
  intros Hi.
  exists channel_timeouts,
    (env_status env (tick (board st)) (SetScanParams scan_time channel_timeouts)).
  assert (Hlen : length channel_timeouts = SCAN_NUM_CHANNELS).
  { rewrite channel_timeouts_cells, length_insert. apply length_replicate. }
  unfold scanAccessPoints. rewrite Hi. simpl.
  destruct (succeeded _) eqn:H1; simpl.
  - destruct (succeeded (env_status env (S (S _)) _)) eqn:H2; simpl.
    + destruct (succeeded (env_status env (S (S (S _))) _)) eqn:H3; simpl;
        eexists; (split; [| split; [exact Hlen | exact channel_timeouts_unset]]);
        rewrite <- !app_assoc; reflexivity.
    + eexists. split; [| split; [exact Hlen | exact channel_timeouts_unset]].
      rewrite <- !app_assoc. reflexivity.
  - exists []. split; [| split; [exact Hlen | exact channel_timeouts_unset]].
    reflexivity.
Qed.

(** *** [getNextAccessPoint]: the caller's struct *)

Lemma strncpy_length (dst src : list Z) (n : nat) :
  length (strncpy dst src n) = length dst.
Proof.
  revert dst src. induction n as [| n IH]; intros dst src; [done |].
  destruct dst as [| d dst]; [done |]. simpl.
  destruct src as [| c src]; simpl; [by rewrite IH |].
  destruct (c =? 0); simpl; by rewrite IH.
Qed.

Lemma strncpy_copies (dst src : list Z) (n : nat) :
  (n <= length dst)%nat -> (n <= length src)%nat ->
  Forall (fun c => c <> 0) (take n src) ->
  strncpy dst src n = take n src ++ drop n dst.
Proof.
  revert dst src. induction n as [| n IH]; intros dst src Hd Hs Hnz; [done |].
  destruct dst as [| d dst]; [simpl in Hd; lia |].
  destruct src as [| c src]; [simpl in Hs; lia |].
  simpl in *. apply Forall_cons in Hnz. destruct Hnz as [Hc Hnz].
  apply Z.eqb_neq in Hc. rewrite Hc. f_equal. apply IH; [lia | lia | exact Hnz].
Qed.

(** C10.  Once the three guards have passed, [ap_info] receives the buffered
    record before the next one is fetched; when that fetch fails the call
    answers [false] and the count is what it was, while the caller's struct
    holds the record: its RSSI, its security mode, its first [BSSID_LENGTH]
    BSSID bytes and its SSID, terminated at the reported length in an array
    that keeps its size (and, for an SSID without NUL inside that length,
    the SSID's characters before the terminator). *)
Theorem getNextAccessPoint_failed_fetch (ap_info : AccessPointInfo.t) (st : State) :
  is_initialized_ (this st) = true ->
  ScanResult.is_valid (ap_scan_result_ (this st)) <> 0 ->
  access_point_count_ (this st) < num_access_points_ (this st) ->
  env_status env (tick (board st)) (GetScanResults 0) <> CC3000_SUCCESS ->
  exists ap_info' st',
    getNextAccessPoint env ap_info st = (false, ap_info', st') /\
    ap_info' = fill_ap_info (ap_scan_result_ (this st)) ap_info /\
    AccessPointInfo.rssi ap_info' = ScanResult.rssi (ap_scan_result_ (this st)) /\
    AccessPointInfo.security_mode ap_info' =
      ScanResult.security_mode (ap_scan_result_ (this st)) /\
    AccessPointInfo.bssid ap_info' =
      take BSSID_LENGTH (ScanResult.bssid (ap_scan_result_ (this st))) ++
      drop BSSID_LENGTH (AccessPointInfo.bssid ap_info) /\
    length (AccessPointInfo.ssid ap_info') = length (AccessPointInfo.ssid ap_info) /\
    ((Z.to_nat (ScanResult.ssid_length (ap_scan_result_ (this st)))
      < length (AccessPointInfo.ssid ap_info))%nat ->
     AccessPointInfo.ssid ap_info'
       !! Z.to_nat (ScanResult.ssid_length (ap_scan_result_ (this st))) = Some 0) /\
    ((Z.to_nat (ScanResult.ssid_length (ap_scan_result_ (this st)))
      < length (AccessPointInfo.ssid ap_info))%nat ->
     (Z.to_nat (ScanResult.ssid_length (ap_scan_result_ (this st)))
      <= length (ScanResult.ssid (ap_scan_result_ (this st))))%nat ->
     Forall (fun c => c <> 0)
            (take (Z.to_nat (ScanResult.ssid_length (ap_scan_result_ (this st))))
                  (ScanResult.ssid (ap_scan_result_ (this st)))) ->
     AccessPointInfo.ssid ap_info' =
       take (Z.to_nat (ScanResult.ssid_length (ap_scan_result_ (this st))))
            (ScanResult.ssid (ap_scan_result_ (this st)))
       ++ 0 :: drop (S (Z.to_nat (ScanResult.ssid_length (ap_scan_result_ (this st)))))
                    (AccessPointInfo.ssid ap_info)) /\
    access_point_count_ (this st') = access_point_count_ (this st).
Proof.
  intros Hi Hv Hc Hr. unfold getNextAccessPoint.
  rewrite Hi. simpl.
  apply Z.eqb_neq in Hv. rewrite Hv.
  assert (Hle : (num_access_points_ (this st) <=? access_point_count_ (this st)) = false)
    by (apply Z.leb_gt; exact Hc).
  rewrite Hle.
  apply succeeded_false in Hr. rewrite Hr. simpl.
  eexists _, _. split; [reflexivity |].
  set (r := ap_scan_result_ (this st)).
  set (n := Z.to_nat (ScanResult.ssid_length r)).
  split; [reflexivity |]. split; [reflexivity |]. split; [reflexivity |].
  split; [reflexivity |].
  unfold fill_ap_info. cbn [AccessPointInfo.ssid]. fold n.
  split; [by rewrite length_insert, strncpy_length |].
  split; [intros Hn; apply list_lookup_insert_eq; by rewrite strncpy_length |].
  split; [| reflexivity].
  intros Hn Hs Hnz.
  rewrite strncpy_copies by (lia || exact Hnz).
  rewrite insert_app_r_alt by (rewrite length_take; lia).
  rewrite length_take. replace (n - n `min` length (ScanResult.ssid r))%nat with 0%nat by lia.
  destruct (lookup_lt_is_Some_2 (AccessPointInfo.ssid ap_info) n Hn) as [y Hy].
  by rewrite (drop_S _ y _ Hy).
Qed.

(** *** [dnsLookup]: the byte order *)

Lemma fill_ip_address_bytes (a : Z) (ip : IPAddr.t) :
  length (IPAddr.address ip) = 4%nat ->
  IPAddr.address (fill_ip_address a ip) =
    [Z.land (Z.shiftr a 24) 255; Z.land (Z.shiftr a 16) 255;
     Z.land (Z.shiftr a 8) 255; Z.land a 255].
Proof.
  destruct ip as [[| x0 [| x1 [| x2 [| x3 [| x4 l]]]]]]; simpl; intros H;
    try discriminate. reflexivity.
Qed.

Lemma byte_of_shift (a k : Z) :
  0 <= k -> Z.land (Z.shiftr a k) 255 = a / 2 ^ k mod 256.
Proof.
  intros Hk. change 255 with (Z.ones 8).
  rewrite Z.land_ones by lia. rewrite Z.shiftr_div_pow2 by lia. reflexivity.
Qed.

(** C8.  When [dnsLookup] answers [true], the four bytes it wrote are the
    base-256 digits of the 32-bit address the resolver left, most significant
    first. *)
Theorem dnsLookup_big_endian hostname (ip ip' : IPAddr.t) (st st' : State) :
  length (IPAddr.address ip) = 4%nat ->
  dnsLookup env hostname ip st = (true, ip', st') ->
  let a := u32 (env_host env (tick (board st)) 0) in
  IPAddr.address ip' =
    [a / 2 ^ 24 mod 256; a / 2 ^ 16 mod 256; a / 2 ^ 8 mod 256; a mod 256] /\
  a = (a / 2 ^ 24 mod 256) * 2 ^ 24 + (a / 2 ^ 16 mod 256) * 2 ^ 16 +
      (a / 2 ^ 8 mod 256) * 2 ^ 8 + a mod 256.
Proof.
  intros Hlen Hrun a. split.
  - unfold dnsLookup in Hrun.
    destruct (negb (is_initialized_ (this st))); [discriminate |].
    destruct (negb (getConnectionStatus st)); [discriminate |].
    destruct (negb (getDHCPStatus st)); [discriminate |].
    simpl in Hrun. destruct (_ =? 0); [discriminate |].
    injection Hrun as <- _.
    rewrite fill_ip_address_bytes by exact Hlen.
    rewrite !byte_of_shift by lia.
    replace (Z.land (u32 (env_host env (tick (board st)) 0)) 255) with (a mod 256).
    + reflexivity.
    + change 255 with (Z.ones 8). rewrite Z.land_ones by lia. reflexivity.
  - assert (Ha : 0 <= a < 2 ^ 32) by (apply Z.mod_pos_bound; lia).
    change (2 ^ 32) with 4294967296 in Ha.
    change (2 ^ 24) with 16777216. change (2 ^ 16) with 65536. change (2 ^ 8) with 256.
    clearbody a. Z.div_mod_to_equations. lia.
Qed.

(** *** [getConnectionInfo]: the reversing loops *)

Lemma byte_at_lookup (a : list Z) (i : nat) (x : Z) :
  a !! i = Some x -> byte_at a i = x.
Proof. intros H. unfold byte_at. by apply nth_lookup_Some. Qed.

(** After [k] rounds the first [k] cells of the destination hold the source
    backwards and the rest is as it was. *)
Lemma reverse_rounds (dst src : list Z) (k : nat) :
  length dst = length src ->
  (k <= length src)%nat ->
  foldl (fun d (i : nat) =>
           <[i := byte_at src (Z.to_nat (Z.of_nat (length src) - 1 - Z.of_nat i))]> d)
        dst (seq 0 k)
  = take k (reverse src) ++ drop k dst.
Proof.
  intros Hlen. induction k as [| k IH]; intros Hk.
  - simpl. by rewrite drop_0.
  - rewrite seq_S, foldl_app. simpl. rewrite IH by lia.
    assert (Hrev : reverse src !! k = src !! (length src - S k)%nat)
      by (apply reverse_lookup; lia).
    destruct (lookup_lt_is_Some_2 src (length src - S k)%nat) as [x Hx]; [lia |].
    destruct (lookup_lt_is_Some_2 dst k) as [y Hy]; [lia |].
    replace (Z.to_nat (Z.of_nat (length src) - 1 - Z.of_nat k))
      with (length src - S k)%nat by lia.
    rewrite (byte_at_lookup _ _ _ Hx).
    rewrite (take_S_r _ _ x) by congruence.
    rewrite insert_app_r_alt by (rewrite length_take, length_reverse; lia).
    rewrite length_take, length_reverse.
    replace (k - k `min` length src)%nat with 0%nat by lia.
    rewrite (drop_S _ y _ Hy). simpl. by rewrite <- app_assoc.
Qed.

Lemma reverse_copy_reverse (dst src : list Z) :
  length dst = length src ->
  (length src < 256)%nat ->
  reverse_copy dst src = reverse src.
Proof.
  intros Hlen Hsmall. unfold reverse_copy, u8.
  rewrite Z.mod_small by lia. rewrite Nat2Z.id.
  rewrite reverse_rounds by lia.
  rewrite take_ge by (rewrite length_reverse; lia).
  rewrite drop_ge by lia. apply app_nil_r.
Qed.

(** C7.  Running the reversing loop of [getConnectionInfo] on its own output
    gives back the array it started from; this holds for every array whose
    size fits the [uint8_t] bound of the loop, the 4-byte addresses and the
    6-byte MAC among them. *)
Theorem reverse_copy_involutive (a dst1 dst2 : list Z) :
  (length a < 256)%nat ->
  length dst1 = length a ->
  length dst2 = length a ->
  reverse_copy dst2 (reverse_copy dst1 a) = a.
Proof.
  intros Hsmall H1 H2.
  rewrite (reverse_copy_reverse dst1 a) by assumption.
  rewrite reverse_copy_reverse by (rewrite length_reverse; assumption).
  apply reverse_involutive.
Qed.

(** *** [connect]: what a [true] answer means *)

Lemma dhcp_loop_proceed fuel timeout time (st st' : State) :
  dhcp_loop env fuel timeout time st = Some (Proceed, st') ->
  getDHCPStatus st' = true.
Proof.
  revert st. induction fuel as [| fuel IH]; intros st; simpl; [discriminate |].
  destruct (getDHCPStatus st) eqn:Hd.
  - intros [= <-]. exact Hd.
  - destruct (timed_out timeout time st); [discriminate |]. apply IH.
Qed.

(** C1, as the code has it.  When [connect] answers [true], the last thing it
    saw of the flags is the DHCP flag up, in the poll that ended the wait;
    the state it returns is the one [netapp_ipconfig] made of that, callback
    included.  The connected flag is not part of the exit test. *)
Theorem connect_true_dhcp_polled fuel ssid security password timeout (st st' : State) :
  connect env fuel ssid security password timeout st = Some (true, st') ->
  exists polled : State,
    ulCC3000DHCP (reg polled) = 1 /\
    st' = netapp_ipconfig env polled /\
    reg st' = env_irq env (tick (board polled)) (reg polled).
Proof.
  unfold connect.
  destruct (negb (is_initialized_ (this st))); [discriminate |].
  destruct (getDHCPStatus st); [discriminate |].
  destruct (negb (valid_security security)); [discriminate |].
  simpl. destruct (negb (succeeded _)); [discriminate |].
  destruct (connect_loop _ _ _ _ _ _ _ _) as [[[|] st1] |]; try discriminate.
  destruct (dhcp_loop _ _ _ _ _) as [[[|] st2] |] eqn:Hw; try discriminate.
  intros [= <-]. exists st2. split; [| split; reflexivity].
  apply dhcp_loop_proceed in Hw. unfold getDHCPStatus in Hw.
  by apply Z.eqb_eq in Hw.
Qed.

(** *** [connect]: the deadline *)

Lemma u32_elapsed (now start : Z) :
  0 <= now - start < 2 ^ 32 -> u32 (u32 now - u32 start) = now - start.
Proof.
  intros H. unfold u32. rewrite <- Zminus_mod. apply Z.mod_small. exact H.
Qed.

Lemma wlan_connect_command security ssid password (st : State) :
  exists c : Command,
    (exists sec s l k kl, c = WlanConnect sec s l k kl) /\
    wlan_connect env security ssid password st =
      (env_status env (tick (board st)) c,
       slice env 0 (log (Chip in_connect c (env_status env (tick (board st)) c)) st)).
Proof.
  unfold wlan_connect. destruct (security =? WLAN_SEC_UNSEC);
    eexists; (split; [by eexists _, _, _, _, _ | reflexivity]).
Qed.

Lemma connect_loop_round fuel security ssid password timeout time (st : State) :
  connect_loop env (S fuel) security ssid password timeout time st =
    if getConnectionStatus st then Some (Proceed, st)
    else
      let '(r, st) := wlan_connect env security ssid password (delay env 10 st) in
      if succeeded r then Some (Proceed, st)
      else if timed_out timeout time st then Some (TimedOut, st)
      else connect_loop env fuel security ssid password timeout time st.
Proof. reflexivity. Qed.

Section Deadline.

(** [d] bounds the time a slice takes on top of a requested delay. *)
Variables (d T : Z) (security : Z) (ssid password : string).
Hypothesis T_pos : 0 < T.
Hypothesis no_wrap : T + 10 + 2 * d < 2 ^ 32.
Hypothesis slice_bound : forall n, Z.of_nat (env_elapsed env n) <= d.
Hypothesis never_connected :
  forall n r, ulCC3000Connected r <> 1 -> ulCC3000Connected (env_irq env n r) <> 1.
Hypothesis always_rejected :
  forall n sec s l k kl, env_status env n (WlanConnect sec s l k kl) <> CC3000_SUCCESS.

(** From any round that starts within the deadline the retry loop leaves by
    its timeout check, in a round that ends less than a round's length after
    the deadline; ten milliseconds of fuel per round are enough. *)
Lemma connect_loop_times_out (t0 : Z) (fuel : nat) (st : State) :
  ulCC3000Connected (reg st) <> 1 ->
  0 <= clock (board st) - t0 <= T ->
  T - (clock (board st) - t0) < 10 * Z.of_nat fuel ->
  exists st',
    connect_loop env fuel security ssid password T (u32 t0) st = Some (TimedOut, st') /\
    T < clock (board st') - t0 <= T + 10 + 2 * d.
Proof.
  revert st. induction fuel as [| fuel IH]; intros st Hc Hin Hfuel; [lia |].
  rewrite connect_loop_round. unfold getConnectionStatus.
  destruct (Z.eqb_spec (ulCC3000Connected (reg st)) 1) as [| _]; [contradiction |].
  destruct (wlan_connect_command security ssid password (delay env 10 st))
    as (c & (sec & s & l & k & kl & ->) & ->).
  pose proof (always_rejected (tick (board (delay env 10 st))) sec s l k kl) as Hrej.
  apply succeeded_false in Hrej. rewrite Hrej.
  set (st2 := slice env 0 _).
  assert (Hclock : clock (board st2) =
                   clock (board st) + 10 + Z.of_nat (env_elapsed env (tick (board st)))
                   + 0 + Z.of_nat (env_elapsed env (S (tick (board st)))))
    by reflexivity.
  assert (Hreg : reg st2 =
                 env_irq env (S (tick (board st))) (env_irq env (tick (board st)) (reg st)))
    by reflexivity.
  pose proof (slice_bound (tick (board st))) as B1.
  pose proof (slice_bound (S (tick (board st)))) as B2.
  unfold timed_out, millis.
  rewrite u32_elapsed by lia.
  destruct (Z.eqb_spec T 0) as [| _]; [lia |]. cbn [negb andb].
  destruct (Z.ltb_spec T (clock (board st2) - t0)) as [Hlate | Hearly].
  - exists st2. split; [reflexivity | lia].
  - apply IH.
    + rewrite Hreg. by do 2 apply never_connected.
    + lia.
    + lia.
Qed.

(** C4.  With a timeout of [T > 0], a chip that never raises the connected
    flag and rejects every connection attempt, [connect] returns, answers
    [false], and does so no later than [T] milliseconds plus one round of the
    retry loop (the 10 ms delay and two slices of at most [d] ms) after it
    entered the loop.  A tenth of [T] rounds of fuel, plus one, let it
    finish. *)
Theorem connect_deadline (fuel : nat) (st : State) :
  ulCC3000Connected (reg st) <> 1 ->
  (Z.to_nat (T / 10) < fuel)%nat ->
  exists st',
    connect env fuel ssid security password T st = Some (false, st') /\
    clock (board st') <= clock (board (loop_entry env st)) + T + 10 + 2 * d.
Proof.
  intros Hc Hfuel.
  pose proof (slice_bound (tick (board st))) as B0.
  assert (Hentry : clock (board (loop_entry env st)) =
                   clock (board st) + 0 + Z.of_nat (env_elapsed env (tick (board st))))
    by reflexivity.
  unfold connect.
  destruct (negb (is_initialized_ (this st))); [exists st; split; [done | lia] |].
  destruct (getDHCPStatus st); [exists st; split; [done | lia] |].
  destruct (negb (valid_security security)); [exists st; split; [done | lia] |].
  change (command env in_connect (SetConnectionPolicy 0 0 0) st)
    with (env_status env (tick (board st)) (SetConnectionPolicy 0 0 0), loop_entry env st).
  cbv beta iota.
  destruct (negb (succeeded _)); [exists (loop_entry env st); split; [done | lia] |].
  destruct (connect_loop_times_out (clock (board (loop_entry env st))) fuel
                                   (loop_entry env st)) as (st' & Hrun & Hbound).
  - change (reg (loop_entry env st)) with (env_irq env (tick (board st)) (reg st)).
    by apply never_connected.
  - lia.
  - pose proof (Z.mul_div_le T 10 ltac:(lia)).
    pose proof (Z.mod_pos_bound T 10 ltac:(lia)).
    pose proof (Z.div_mod T 10 ltac:(lia)).
    assert (0 <= T / 10) by (apply Z.div_pos; lia). lia.
  - unfold millis. rewrite Hrun. exists st'. split; [done | lia].
Qed.

End Deadline.

(** *** The scan session *)

Lemma u16_range (x : Z) : 0 <= u16 x < 2 ^ 16.
Proof. unfold u16. apply Z.mod_pos_bound. lia. Qed.

Lemma u16_small (x : Z) : 0 <= x < 2 ^ 16 -> u16 x = x.
Proof. unfold u16. apply Z.mod_small. Qed.

(** The three ways out of [getNextAccessPoint]: a guard, a failed fetch, a
    successful fetch. *)
Lemma getNextAccessPoint_cases (ap_info : AccessPointInfo.t) (st : State) :
  (getNextAccessPoint env ap_info st = (false, ap_info, st) /\
   (is_initialized_ (this st) = false \/
    ScanResult.is_valid (ap_scan_result_ (this st)) = 0 \/
    num_access_points_ (this st) <= access_point_count_ (this st)))
  \/
  (is_initialized_ (this st) = true /\
   ScanResult.is_valid (ap_scan_result_ (this st)) <> 0 /\
   access_point_count_ (this st) < num_access_points_ (this st) /\
   exists (ok : bool) (st' : State),
     getNextAccessPoint env ap_info st =
       (ok, fill_ap_info (ap_scan_result_ (this st)) ap_info, st') /\
     ok = succeeded (env_status env (tick (board st)) (GetScanResults 0)) /\
     is_initialized_ (this st') = true /\
     num_access_points_ (this st') = num_access_points_ (this st) /\
     access_point_count_ (this st') =
       (if ok then u16 (access_point_count_ (this st) + 1)
        else access_point_count_ (this st)) /\
     ap_scan_result_ (this st') =
       env_scan env (tick (board st)) (ap_scan_result_ (this st)) /\
     tick (board st') = S (tick (board st)) /\
     trace (board st') =
       trace (board st) ++
       [Chip in_getNextAccessPoint (GetScanResults 0)
             (env_status env (tick (board st)) (GetScanResults 0))]).
Proof.
  unfold getNextAccessPoint.
  destruct (is_initialized_ (this st)) eqn:Hi; simpl; [| left; auto].
  destruct (Z.eqb_spec (ScanResult.is_valid (ap_scan_result_ (this st))) 0) as [Hv | Hv];
    [left; auto |].
  destruct (Z.leb_spec (num_access_points_ (this st)) (access_point_count_ (this st)))
    as [Hc | Hc]; [left; auto |].
  right. repeat split; try assumption.
  destruct (succeeded _) eqn:Hr; simpl; eexists _, _; repeat split; by rewrite ?Hi.
Qed.

(** When the counters of a successful [scanAccessPoints] are what the call
    left, the object is initialized, nothing is retrieved yet and the total
    fits its type. *)
Lemma scanAccessPoints_true scan_time (st st1 : State) :
  scanAccessPoints env scan_time st = (true, st1) ->
  is_initialized_ (this st1) = true /\
  access_point_count_ (this st1) = 0 /\
  0 <= num_access_points_ (this st1) < 2 ^ 16.
Proof.
  unfold scanAccessPoints.
  destruct (is_initialized_ (this st)) eqn:Hi; simpl; [| discriminate].
  destruct (succeeded _); simpl; [| discriminate].
  destruct (succeeded _); simpl; [| discriminate].
  destruct (succeeded _); simpl; [| discriminate].
  intros [= <-]. simpl. repeat split; try apply u16_range. exact Hi.
Qed.

(** [m] networks left, all fetches good, every record that a later call will
    hand out valid: [m] calls answer [true] and use the total up. *)
Lemma drain_remaining (m : nat) :
  forall (ap_info : AccessPointInfo.t) (st : State),
    is_initialized_ (this st) = true ->
    0 <= access_point_count_ (this st) ->
    num_access_points_ (this st) < 2 ^ 16 ->
    num_access_points_ (this st) - access_point_count_ (this st) = Z.of_nat m ->
    ((0 < m)%nat -> ScanResult.is_valid (ap_scan_result_ (this st)) <> 0) ->
    (forall k, (k < m)%nat ->
       env_status env (tick (board st) + k) (GetScanResults 0) = CC3000_SUCCESS) ->
    (forall k buf, (S k < m)%nat ->
       ScanResult.is_valid (env_scan env (tick (board st) + k) buf) <> 0) ->
    exists ap_info' st',
      drain env m ap_info st = (replicate m true, ap_info', st') /\
      is_initialized_ (this st') = true /\
      num_access_points_ (this st') = num_access_points_ (this st) /\
      access_point_count_ (this st') = num_access_points_ (this st).
Proof.
  induction m as [| m IH]; intros ap_info st Hi Hc Hn Hm Hv Hok Hvalid.
  - exists ap_info, st. repeat split; [done | lia].
  - destruct (getNextAccessPoint_cases ap_info st)
      as [[_ [H | [H | H]]] | (_ & _ & _ & ok & st1 & Hrun & Hr & Hi1 & Hn1 & Hc1 & Hb1 & Ht1 & _)].
    + congruence.
    + exfalso. apply Hv; [lia | exact H].
    + lia.
    + pose proof (Hok 0%nat ltac:(lia)) as H0. rewrite Nat.add_0_r in H0.
      apply succeeded_true in H0. rewrite H0 in Hr. subst ok.
      rewrite u16_small in Hc1 by lia.
      destruct (IH (fill_ap_info (ap_scan_result_ (this st)) ap_info) st1)
        as (ap' & st' & Hrest & Hi' & Hn' & Hc'); try assumption; try lia.
      * intros Hpos. rewrite Hb1. specialize (Hvalid 0%nat (ap_scan_result_ (this st))).
        rewrite Nat.add_0_r in Hvalid. apply Hvalid. lia.
      * intros k Hk. rewrite Ht1.
        replace (S (tick (board st)) + k)%nat with (tick (board st) + S k)%nat by lia.
        apply Hok. lia.
      * intros k buf Hk. rewrite Ht1.
        replace (S (tick (board st)) + k)%nat with (tick (board st) + S k)%nat by lia.
        apply Hvalid. lia.
      * exists ap', st'. simpl. rewrite Hrun, Hrest.
        repeat split; [assumption | congruence | congruence].
Qed.

(** C3, as the code has it.  After a [scanAccessPoints] that answered [true]
    with a valid first record and a total of [total], with every fetch
    accepted and every record that the chip hands back ahead of one of
    the first [total] calls valid, the first [total] calls of
    [getNextAccessPoint] answer [true], the next one answers [false] and
    changes nothing, and the count then equals the total. *)
Theorem scan_then_drain scan_time (ap_info : AccessPointInfo.t) (st st1 : State) :
  scanAccessPoints env scan_time st = (true, st1) ->
  ScanResult.is_valid (ap_scan_result_ (this st1)) <> 0 ->
  (forall n, env_status env n (GetScanResults 0) = CC3000_SUCCESS) ->
  (forall k buf, (S k < Z.to_nat (num_access_points_ (this st1)))%nat ->
     ScanResult.is_valid (env_scan env (tick (board st1) + k) buf) <> 0) ->
  exists ap_info' st',
    drain env (Z.to_nat (num_access_points_ (this st1))) ap_info st1 =
      (replicate (Z.to_nat (num_access_points_ (this st1))) true, ap_info', st') /\
    getNextAccessPoint env ap_info' st' = (false, ap_info', st') /\
    access_point_count_ (this st') = num_access_points_ (this st1).
Proof.
  intros Hscan Hv Hok Hvalid.
  destruct (scanAccessPoints_true _ _ _ Hscan) as (Hi & Hc & Hn).
  destruct (drain_remaining (Z.to_nat (num_access_points_ (this st1))) ap_info st1)
    as (ap' & st' & Hrun & Hi' & Hn' & Hc'); try assumption; try lia.
  - intros k _. apply Hok.
  - exists ap', st'. split; [exact Hrun |]. split; [| exact Hc'].
    destruct (getNextAccessPoint_cases ap' st') as [[Hstop _] | (_ & _ & Hlt & _)];
      [exact Hstop | lia].
Qed.

(** *** The scan session across the whole interface *)

Lemma session_kept_refl (st : State) : session_kept st st.
Proof. repeat split. exists []. by rewrite app_nil_r. Qed.

Lemma session_kept_trans (st1 st2 st3 : State) :
  session_kept st1 st2 -> session_kept st2 st3 -> session_kept st1 st3.
Proof.
  intros (Hn1 & Hc1 & m1 & Ht1) (Hn2 & Hc2 & m2 & Ht2).
  repeat split; [congruence | congruence |].
  exists (m1 ++ m2). rewrite Ht2, Ht1. by rewrite app_assoc.
Qed.

Lemma session_ok_kept (st st' : State) :
  session_ok st -> session_kept st st' -> session_ok st'.
Proof.
  intros (Hr & Hle & Hf) (Hn & Hc & more & Ht).
  unfold session_ok, counters_in_range, scan_fetched in *.
  rewrite Hn, Hc, Ht. repeat split; try tauto.
  intros Hpos. apply in_or_app. left. by apply Hf.
Qed.

Ltac kept_by_computation :=
  unfold session_kept; simpl; repeat split;
  first [ exists []; by rewrite app_nil_r
        | eexists; rewrite <- ?app_assoc; reflexivity ].

Lemma slice_kept ms (st : State) : session_kept st (slice env ms st).
Proof. kept_by_computation. Qed.

Lemma command_kept who c (st : State) : session_kept st (snd (command env who c st)).
Proof. kept_by_computation. Qed.

Lemma init_kept (st : State) : session_kept st (snd (init env st)).
Proof.
  unfold init. destruct (is_initialized_ (this st)); [apply session_kept_refl |].
  destruct (negb AVR_ATMEGA); [apply session_kept_refl |].
  destruct (interrupt_of_pin _); [| apply session_kept_refl].
  kept_by_computation.
Qed.

Lemma getFirmwareVersion_kept fw_ver (st : State) :
  session_kept st (snd (getFirmwareVersion env fw_ver st)).
Proof.
  unfold getFirmwareVersion.
  destruct (negb (is_initialized_ (this st))); [apply session_kept_refl |].
  simpl. destruct (negb (succeeded _)); kept_by_computation.
Qed.

Lemma getMacAddress_kept mac_addr (st : State) :
  session_kept st (snd (getMacAddress env mac_addr st)).
Proof.
  unfold getMacAddress.
  destruct (negb (is_initialized_ (this st))); [apply session_kept_refl |].
  simpl. destruct (negb (succeeded _)); kept_by_computation.
Qed.

Lemma disconnect_kept (st : State) : session_kept st (snd (disconnect env st)).
Proof.
  unfold disconnect.
  destruct (negb (is_initialized_ (this st))); [apply session_kept_refl |].
  simpl. destruct (succeeded _); kept_by_computation.
Qed.

Lemma dnsLookup_kept hostname ip (st : State) :
  session_kept st (snd (dnsLookup env hostname ip st)).
Proof.
  unfold dnsLookup.
  destruct (negb (is_initialized_ (this st))); [apply session_kept_refl |].
  destruct (negb (getConnectionStatus st)); [apply session_kept_refl |].
  destruct (negb (getDHCPStatus st)); [apply session_kept_refl |].
  simpl. destruct (_ =? 0); kept_by_computation.
Qed.

Lemma ping_kept ip report attempts size timeout (st : State) :
  session_kept st (snd (ping env ip report attempts size timeout st)).
Proof.
  unfold ping.
  destruct (negb (is_initialized_ (this st))); [apply session_kept_refl |].
  destruct (negb (getConnectionStatus st)); [apply session_kept_refl |].
  destruct (negb (getDHCPStatus st)); [apply session_kept_refl |].
  simpl. destruct (negb (succeeded _)); kept_by_computation.
Qed.

Lemma connect_loop_kept fuel security ssid password timeout time (st st' : State) e :
  connect_loop env fuel security ssid password timeout time st = Some (e, st') ->
  session_kept st st'.
Proof.
  revert st. induction fuel as [| fuel IH]; intros st; [discriminate |].
  rewrite connect_loop_round.
  destruct (getConnectionStatus st); [intros [= _ <-]; apply session_kept_refl |].
  destruct (wlan_connect_command security ssid password (delay env 10 st))
    as (c & _ & ->).
  set (st2 := slice env 0 _).
  assert (session_kept st st2) by kept_by_computation.
  destruct (succeeded _); [by intros [= _ <-] |].
  destruct (timed_out timeout time st2); [by intros [= _ <-] |].
  intros Hrun. eapply session_kept_trans; [eassumption | by apply IH].
Qed.

Lemma dhcp_loop_kept fuel timeout time (st st' : State) e :
  dhcp_loop env fuel timeout time st = Some (e, st') -> session_kept st st'.
Proof.
  revert st. induction fuel as [| fuel IH]; intros st; simpl; [discriminate |].
  destruct (getDHCPStatus st); [intros [= _ <-]; apply session_kept_refl |].
  destruct (timed_out timeout time st); [intros [= _ <-]; apply session_kept_refl |].
  intros Hrun. eapply session_kept_trans; [apply slice_kept | by apply IH].
Qed.

Lemma netapp_ipconfig_kept (st : State) : session_kept st (netapp_ipconfig env st).
Proof. kept_by_computation. Qed.

Lemma connect_kept fuel ssid security password timeout (st st' : State) ok :
  connect env fuel ssid security password timeout st = Some (ok, st') ->
  session_kept st st'.
Proof.
  unfold connect.
  destruct (negb (is_initialized_ (this st))); [intros [= _ <-]; apply session_kept_refl |].
  destruct (getDHCPStatus st); [intros [= _ <-]; apply session_kept_refl |].
  destruct (negb (valid_security security));
    [intros [= _ <-]; apply session_kept_refl |].
  change (command env in_connect (SetConnectionPolicy 0 0 0) st)
    with (env_status env (tick (board st)) (SetConnectionPolicy 0 0 0), loop_entry env st).
  cbv beta iota.
  assert (H0 : session_kept st (loop_entry env st)) by apply command_kept.
  destruct (negb (succeeded _)); [by intros [= _ <-] |].
  destruct (connect_loop _ _ _ _ _ _ _ _) as [[[|] st1] |] eqn:H1; try discriminate.
  - apply connect_loop_kept in H1.
    destruct (dhcp_loop _ _ _ _ _) as [[[|] st2] |] eqn:H2; try discriminate;
      apply dhcp_loop_kept in H2; intros [= _ <-].
    + eapply session_kept_trans; [exact H0 |].
      eapply session_kept_trans; [exact H1 |].
      eapply session_kept_trans; [exact H2 | apply netapp_ipconfig_kept].
    + eapply session_kept_trans; [exact H0 |].
      eapply session_kept_trans; [exact H1 | exact H2].
  - apply connect_loop_kept in H1. intros [= _ <-].
    eapply session_kept_trans; [exact H0 | exact H1].
Qed.

(** The constructor opens the session. *)
Lemma session_ok_new int_pin en_pin cs_pin (raw : State) :
  session_ok (SFE_CC3000 int_pin en_pin cs_pin raw).
Proof. unfold session_ok, counters_in_range. simpl. lia. Qed.

(** [scanAccessPoints] keeps it from every state: where it returns early the
    counters are untouched, afterwards they are 0 and, once the first fetch
    is in, a total that fits its type. *)
Lemma scanAccessPoints_session_ok scan_time (st : State) :
  session_ok st -> session_ok (snd (scanAccessPoints env scan_time st)).
Proof.
  intros Hok. unfold scanAccessPoints.
  destruct (negb (is_initialized_ (this st))); [exact Hok |].
  simpl. destruct (negb (succeeded _)).
  - eapply session_ok_kept; [exact Hok | kept_by_computation].
  - simpl. destruct (succeeded _) eqn:Hfetch; simpl.
    + apply succeeded_true in Hfetch.
      assert (Hgoal : forall st', 
                 access_point_count_ (this st') = 0 ->
                 num_access_points_ (this st') =
                   u16 (ScanResult.num_networks
                          (env_scan env (S (S (tick (board st)))) (ap_scan_result_ (this st)))) ->
                 In (Chip in_scanAccessPoints (GetScanResults 0) CC3000_SUCCESS)
                    (trace (board st')) ->
                 session_ok st').
      { intros st' Hc Hn Hin. unfold session_ok, counters_in_range, scan_fetched.
        rewrite Hc, Hn.
        pose proof (u16_range (ScanResult.num_networks
          (env_scan env (S (S (tick (board st)))) (ap_scan_result_ (this st))))).
        repeat split; try lia. intros _. exact Hin. }
      destruct (negb (succeeded _)); apply Hgoal; try reflexivity; simpl;
        rewrite Hfetch, !in_app_iff; simpl; tauto.
    + unfold session_ok, counters_in_range. simpl. lia.
Qed.

(** [getNextAccessPoint] keeps it from every state: the count moves only
    while it is below the total, so the increment cannot wrap. *)
Lemma getNextAccessPoint_session_ok ap_info (st : State) :
  session_ok st -> session_ok (snd (getNextAccessPoint env ap_info st)).
Proof.
  intros ((Hc & Hn) & Hle & Hf).
  destruct (getNextAccessPoint_cases ap_info st)
    as [[-> _] | (_ & _ & Hlt & ok & st' & -> & _ & _ & Hn' & Hc' & _ & _ & Ht')].
  - simpl. repeat split; tauto.
  - simpl. unfold session_ok, counters_in_range, scan_fetched.
    rewrite Hn', Hc', Ht'.
    assert (Hnext : 0 <= (if ok then u16 (access_point_count_ (this st) + 1)
                          else access_point_count_ (this st))
                    <= num_access_points_ (this st)).
    { destruct ok; [rewrite u16_small |]; lia. }
    repeat split; try lia.
    intros Hpos. apply in_or_app. left. by apply Hf.
Qed.

Lemma reachable_session_ok (st : State) : reachable env st -> session_ok st.
Proof.
  induction 1 as [int_pin en_pin cs_pin raw _ | c st st' _ IH Hstep].
  - apply session_ok_new.
  - destruct c; simpl in Hstep.
    + injection Hstep as <-. eapply session_ok_kept; [exact IH | apply init_kept].
    + injection Hstep as <-.
      eapply session_ok_kept; [exact IH | apply getFirmwareVersion_kept].
    + injection Hstep as <-.
      eapply session_ok_kept; [exact IH | apply getMacAddress_kept].
    + injection Hstep as <-. by apply scanAccessPoints_session_ok.
    + injection Hstep as <-. by apply getNextAccessPoint_session_ok.
    + destruct (connect _ _ _ _ _ _ _) as [[ok st2] |] eqn:Hrun; [| discriminate].
      injection Hstep as <-. simpl.
      eapply session_ok_kept; [exact IH | eapply connect_kept; exact Hrun].
    + injection Hstep as <-. eapply session_ok_kept; [exact IH | apply disconnect_kept].
    + injection Hstep as <-. eapply session_ok_kept; [exact IH | apply dnsLookup_kept].
    + injection Hstep as <-. eapply session_ok_kept; [exact IH | apply ping_kept].
    + injection Hstep as <-. exact IH.
    + injection Hstep as <-. eapply session_ok_kept; [exact IH | apply slice_kept].
Qed.

(** C6, as the code has it.  In every state an object can be in from its
    construction on, whatever was called in between, the retrieved count is
    at most the total; and [getNextAccessPoint] answers [true] there only if
    the buffered record is marked valid and the log holds a result fetch that
    succeeded inside [scanAccessPoints], which is what makes the total
    positive.  That [scanAccessPoints] call need not have answered [true]:
    its answer also depends on the stop command after the fetch. *)
Theorem scan_session_invariant (st : State) :
  reachable env st ->
  access_point_count_ (this st) <= num_access_points_ (this st) /\
  forall ap_info ap_info' st',
    getNextAccessPoint env ap_info st = (true, ap_info', st') ->
    ScanResult.is_valid (ap_scan_result_ (this st)) <> 0 /\ scan_fetched st.
Proof.
  intros Hreach. destruct (reachable_session_ok st Hreach) as ((Hc & Hn) & Hle & Hf).
  split; [exact Hle |].
  intros ap_info ap_info' st' Hrun.
  destruct (getNextAccessPoint_cases ap_info st)
    as [[Hstop _] | (_ & Hv & Hlt & _)]; [congruence |].
  split; [exact Hv |]. apply Hf. lia.
Qed.

End Properties.

(** ** The properties at work

    Each statement above that has premises, applied to one of the sample
    chips; and the runs on which the wording of the specification and the
    code part ways. *)

Lemma init_idempotent_witness :
  is_initialized_ (this (ready quiet_chip)) = true /\
  init (hdr := cc3000_header) quiet_chip (ready quiet_chip) = (true, ready quiet_chip).
Proof.
  split; [reflexivity |].
  apply (init_idempotent (hdr := cc3000_header)). reflexivity.
Defined.

Lemma connect_guard_untouched_witness :
  connect (hdr := cc3000_header) quiet_chip 0 "openNet" 7 "secret" 5000 (ready quiet_chip)
  = Some (false, ready quiet_chip).
Proof.
  apply (connect_guard_untouched (hdr := cc3000_header)).
  right. right. simpl. lia.
Defined.

Lemma scanAccessPoints_timeouts_unset_witness :
  exists a r rest,
    trace (board (snd (scanAccessPoints (hdr := cc3000_header) quiet_chip 4000
                                        (ready quiet_chip)))) =
      trace (board (ready quiet_chip)) ++
      Chip in_scanAccessPoints (SetScanParams 4000 a) r :: rest /\
    length a = 16%nat /\
    forall i : nat, (0 < i < 16)%nat -> a !! i = Some None.
Proof.
  apply (scanAccessPoints_timeouts_unset (hdr := cc3000_header)). reflexivity.
Defined.

(** The run behind C2: with the shipped constants the array that reaches the
    chip is one timeout and fifteen cells nobody wrote. *)
Example channel_timeouts_shipped :
  channel_timeouts (hdr := cc3000_header) = Some 2000 :: replicate 15 None.
Proof. reflexivity. Qed.

Lemma getNextAccessPoint_failed_fetch_witness :
  let st := snd (scanAccessPoints (hdr := cc3000_header) failing_fetch_chip 4000
                                  (ready failing_fetch_chip)) in
  exists ap_info' st',
    getNextAccessPoint (hdr := cc3000_header) failing_fetch_chip blank_ap_info st
      = (false, ap_info', st') /\
    AccessPointInfo.rssi ap_info' = 54 /\
    AccessPointInfo.security_mode ap_info' = 3 /\
    AccessPointInfo.bssid ap_info' = [0; 17; 34; 51; 68; 85] /\
    AccessPointInfo.ssid ap_info' = [108; 97; 98] ++ replicate 30 0 /\
    access_point_count_ (this st') = access_point_count_ (this st).
Proof.
  intros st.
  destruct (getNextAccessPoint_failed_fetch (hdr := cc3000_header) failing_fetch_chip
                                            blank_ap_info st)
    as (ap' & st' & Hrun & _ & Hrssi & Hsec & Hbssid & _ & _ & Hssid & Hcount).
  - reflexivity.
  - vm_compute. discriminate.
  - vm_compute. reflexivity.
  - vm_compute. discriminate.
  - exists ap', st'. split; [exact Hrun |].
    split; [exact Hrssi |]. split; [exact Hsec |]. split; [exact Hbssid |].
    split; [| exact Hcount].
    apply Hssid; [vm_compute; lia | vm_compute; lia |].
    repeat constructor; discriminate.
Defined.

(** On that run the caller's struct, all zero before, comes back with the
    record in it. *)
Example failed_fetch_overwrites :
  let st := snd (scanAccessPoints (hdr := cc3000_header) failing_fetch_chip 4000
                                  (ready failing_fetch_chip)) in
  fst (getNextAccessPoint (hdr := cc3000_header) failing_fetch_chip blank_ap_info st) =
    (false,
     AccessPointInfo.mk 54 3 ([108; 97; 98] ++ replicate 30 0) [0; 17; 34; 51; 68; 85]).
Proof. reflexivity. Qed.

Lemma dnsLookup_big_endian_witness :
  let st := ready resolving_chip in
  let a := u32 (env_host resolving_chip (tick (board st)) 0) in
  a = 3232235786 /\
  IPAddr.address (snd (fst (dnsLookup resolving_chip "example.org"
                                      (IPAddr.mk [0; 0; 0; 0]) st))) =
    [a / 2 ^ 24 mod 256; a / 2 ^ 16 mod 256; a / 2 ^ 8 mod 256; a mod 256] /\
  a = (a / 2 ^ 24 mod 256) * 2 ^ 24 + (a / 2 ^ 16 mod 256) * 2 ^ 16 +
      (a / 2 ^ 8 mod 256) * 2 ^ 8 + a mod 256.
Proof.
  split; [reflexivity |].
  apply (dnsLookup_big_endian resolving_chip "example.org" (IPAddr.mk [0; 0; 0; 0]) _
                              (ready resolving_chip)
                              (snd (dnsLookup resolving_chip "example.org"
                                              (IPAddr.mk [0; 0; 0; 0])
                                              (ready resolving_chip)))).
  - reflexivity.
  - reflexivity.
Defined.

(** 192.168.1.10 comes out in reading order. *)
Example dnsLookup_sample :
  fst (dnsLookup resolving_chip "example.org" (IPAddr.mk [0; 0; 0; 0])
                 (ready resolving_chip)) = (true, IPAddr.mk [192; 168; 1; 10]).
Proof. reflexivity. Qed.

Lemma reverse_copy_involutive_witness :
  reverse_copy [0; 0; 0; 0] (reverse_copy [7; 7; 7; 7] [10; 1; 168; 192]) = [10; 1; 168; 192].
Proof. apply reverse_copy_involutive; simpl; lia. Defined.

Example reverse_copy_sample :
  reverse_copy [7; 7; 7; 7] [10; 1; 168; 192] = [192; 168; 1; 10] /\
  reverse_copy (replicate 6 0) [1; 2; 3; 4; 5; 6] = [6; 5; 4; 3; 2; 1].
Proof. split; reflexivity. Qed.

(** C1 against the code: [connect] answers [true] on a run in which the
    connected flag was never up and the DHCP flag, up at the last poll, is
    down again when the call returns. *)
Lemma connect_true_flags_down :
  exists st',
    connect (hdr := cc3000_header) link_drop_chip 10 "openNet" 0 EmptyString 5000
            (ready link_drop_chip) = Some (true, st') /\
    ulCC3000Connected (reg st') = 0 /\
    ulCC3000DHCP (reg st') = 0.
Proof. eexists. split; [vm_compute; reflexivity | split; reflexivity]. Qed.

Lemma connect_true_dhcp_polled_witness :
  exists st' polled,
    connect (hdr := cc3000_header) link_drop_chip 10 "openNet" 0 EmptyString 5000
            (ready link_drop_chip) = Some (true, st') /\
    ulCC3000DHCP (reg polled) = 1 /\
    st' = netapp_ipconfig link_drop_chip polled /\
    reg st' = env_irq link_drop_chip (tick (board polled)) (reg polled).
Proof.
  destruct (connect (hdr := cc3000_header) link_drop_chip 10 "openNet" 0 EmptyString 5000
                    (ready link_drop_chip)) as [[[|] st'] |] eqn:Hrun.
  - destruct (connect_true_dhcp_polled (hdr := cc3000_header) _ _ _ _ _ _ _ _ Hrun)
      as (polled & H1 & H2 & H3).
    exists st', polled. repeat split; assumption.
  - vm_compute in Hrun. discriminate.
  - vm_compute in Hrun. discriminate.
Defined.

Lemma connect_deadline_witness :
  exists st',
    connect (hdr := cc3000_header) rejecting_chip 6 "openNet" 0 EmptyString 50
            (ready rejecting_chip) = Some (false, st') /\
    clock (board st') <=
      clock (board (loop_entry rejecting_chip (ready rejecting_chip))) + 50 + 10 + 2 * 3.
Proof.
  apply (connect_deadline (hdr := cc3000_header) rejecting_chip 3 50 0 "openNet" EmptyString).
  - lia.
  - lia.
  - intros n. simpl. lia.
  - intros n r H. exact H.
  - intros n sec s l k kl. simpl. discriminate.
  - simpl. discriminate.
  - vm_compute. lia.
Defined.

(** The same run by the clock: the loop is entered at 109 ms and left at
    173 ms, 64 ms later, for a timeout of 50 ms and rounds of 16 ms. *)
Example connect_deadline_sample :
  clock (board (loop_entry rejecting_chip (ready rejecting_chip))) = 109 /\
  option_map (fun r => (fst r, clock (board (snd r))))
             (connect (hdr := cc3000_header) rejecting_chip 6 "openNet" 0 EmptyString 50
                      (ready rejecting_chip)) = Some (false, 173).
Proof. split; reflexivity. Qed.

(** C3 against the code: the scan answers [true] with a total of two and a
    valid first record, every fetch is accepted, and the second call of
    [getNextAccessPoint] answers [false], the record fetched by the first
    call being marked invalid. *)
Lemma drain_stale_record :
  let st1 := snd (scanAccessPoints (hdr := cc3000_header) stale_records_chip 4000
                                   (ready stale_records_chip)) in
  scanAccessPoints (hdr := cc3000_header) stale_records_chip 4000
                   (ready stale_records_chip) = (true, st1) /\
  num_access_points_ (this st1) = 2 /\
  ScanResult.is_valid (ap_scan_result_ (this st1)) = 1 /\
  (forall n, env_status stale_records_chip n (GetScanResults 0) =
             CC3000_SUCCESS (Header := cc3000_header)) /\
  fst (fst (drain (hdr := cc3000_header) stale_records_chip 2 blank_ap_info st1)) =
    [true; false].
Proof. repeat split. Qed.

Lemma scan_then_drain_witness :
  let st1 := snd (scanAccessPoints (hdr := cc3000_header) three_networks_chip 4000
                                   (ready three_networks_chip)) in
  num_access_points_ (this st1) = 3 /\
  exists ap_info' st',
    drain (hdr := cc3000_header) three_networks_chip
          (Z.to_nat (num_access_points_ (this st1))) blank_ap_info st1 =
      (replicate (Z.to_nat (num_access_points_ (this st1))) true, ap_info', st') /\
    getNextAccessPoint (hdr := cc3000_header) three_networks_chip ap_info' st' =
      (false, ap_info', st') /\
    access_point_count_ (this st') = num_access_points_ (this st1).
Proof.
  split; [reflexivity |].
  apply (scan_then_drain (hdr := cc3000_header) three_networks_chip 4000 blank_ap_info
                         (ready three_networks_chip)).
  - reflexivity.
  - vm_compute. discriminate.
  - intros n. reflexivity.
  - intros k buf _. vm_compute. discriminate.
Defined.

Lemma scan_session_invariant_witness :
  let st := snd (scanAccessPoints (hdr := cc3000_header) three_networks_chip 4000
                                  (ready three_networks_chip)) in
  access_point_count_ (this st) <= num_access_points_ (this st) /\
  forall ap_info ap_info' st',
    getNextAccessPoint (hdr := cc3000_header) three_networks_chip ap_info st
      = (true, ap_info', st') ->
    ScanResult.is_valid (ap_scan_result_ (this st)) <> 0 /\
    scan_fetched (hdr := cc3000_header) st.
Proof.
  apply (scan_session_invariant (hdr := cc3000_header) three_networks_chip).
  apply (reach_call (hdr := cc3000_header) three_networks_chip (call_scanAccessPoints 4000)
                    (ready three_networks_chip)); [| reflexivity].
  apply (reach_call (hdr := cc3000_header) three_networks_chip call_init
                    (SFE_CC3000 2 7 10 power_on)); [| reflexivity].
  apply reach_new. reflexivity.
Defined.

(** C6 against the code: the one [scanAccessPoints] call made on the object
    answers [false], its stop command being rejected, and the three records
    are handed out all the same. *)
Lemma records_after_failed_scan :
  let st := ready stop_rejecting_chip in
  let st1 := snd (scanAccessPoints (hdr := cc3000_header) stop_rejecting_chip 4000 st) in
  reachable (hdr := cc3000_header) stop_rejecting_chip st1 /\
  trace (board st) =
    [Hw (PinMode 2 false); Hw (PinMode 7 true); Hw (PinMode 10 true);
     Hw (DigitalWrite 7 false); Hw (DigitalWrite 10 false); Hw SpiBegin;
     Hw SpiSetDataMode; Hw SpiSetBitOrder; Hw SpiSetClockDivider; Hw WlanInit;
     Hw (WlanStart 0)] /\
  fst (scanAccessPoints (hdr := cc3000_header) stop_rejecting_chip 4000 st) = false /\
  fst (fst (drain (hdr := cc3000_header) stop_rejecting_chip 4 blank_ap_info st1)) =
    [true; true; true; false].
Proof.
  intros st st1. split; [| repeat split].
  apply (reach_call (hdr := cc3000_header) stop_rejecting_chip (call_scanAccessPoints 4000)
                    st); [| reflexivity].
  apply (reach_call (hdr := cc3000_header) stop_rejecting_chip call_init
                    (SFE_CC3000 2 7 10 power_on)); [| reflexivity].
  apply reach_new. reflexivity.
Qed.

(** A fresh object, initialized or not, hands out nothing. *)
Example nothing_before_scan :
  fst (fst (getNextAccessPoint (hdr := cc3000_header) three_networks_chip blank_ap_info
                               (SFE_CC3000 2 7 10 power_on))) = false /\
  fst (fst (getNextAccessPoint (hdr := cc3000_header) three_networks_chip blank_ap_info
                               (ready three_networks_chip))) = false.
Proof. split; reflexivity. Qed.

(** ** More of the driver's behaviour *)

Section Behaviour.

Context {hdr : Header}.
Variable env : Env.

(** *** [init]: what decides its answer *)

(** X1.  On an object that is not initialized, [init] fails without touching
    anything unless the build is for one of the ATmega targets and the
    interrupt pin is 2 or 3; otherwise it succeeds: interrupt number 0 or 1,
    eleven pin, bus and driver calls in source order, a 100 ms delay and the
    chip start, and the flag set.  The scan session and the status globals
    are none of its business. *)
Theorem init_outcome (st : State) :
  is_initialized_ (this st) = false ->
  (AVR_ATMEGA = false \/ (g_int_pin (pins st) <> 2 /\ g_int_pin (pins st) <> 3) ->
   init env st = (false, st)) /\
  (AVR_ATMEGA = true -> g_int_pin (pins st) = 2 \/ g_int_pin (pins st) = 3 ->
   exists st',
     init env st = (true, st') /\
     this st' = mkObject true (num_access_points_ (this st)) (access_point_count_ (this st))
                         (ap_scan_result_ (this st)) (connection_info_ (this st)) /\
     pins st' = mkPins (g_int_pin (pins st)) (g_int_pin (pins st) - 2)
                       (g_en_pin (pins st)) (g_cs_pin (pins st)) /\
     reg st' = irqs env (tick (board st)) 2 (reg st) /\
     tick (board st') = S (S (tick (board st))) /\
     clock (board st') = clock (board st) + 100 + slices_time env (tick (board st)) 2 /\
     trace (board st') =
       trace (board st) ++
       [Hw (PinMode (g_int_pin (pins st)) false); Hw (PinMode (g_en_pin (pins st)) true);
        Hw (PinMode (g_cs_pin (pins st)) true); Hw (DigitalWrite (g_en_pin (pins st)) false);
        Hw (DigitalWrite (g_cs_pin (pins st)) false); Hw SpiBegin; Hw SpiSetDataMode;
        Hw SpiSetBitOrder; Hw SpiSetClockDivider; Hw WlanInit; Hw (WlanStart 0)]).
Proof.
  intros Hi. split.
  - intros H. unfold init. rewrite Hi.
    destruct AVR_ATMEGA; simpl; [| reflexivity].
    destruct H as [H | [H2 H3]]; [discriminate |].
    unfold interrupt_of_pin.
    apply Z.eqb_neq in H2, H3. by rewrite H2, H3.
  - intros Havr Hpin. unfold init, interrupt_of_pin. rewrite Hi, Havr. simpl.
    destruct Hpin as [Hp | Hp]; rewrite Hp; simpl;
      (eexists; split; [reflexivity |]); simpl;
      repeat split; try lia; by rewrite <- !app_assoc.
Qed.

(** *** The guards *)

(** The first guard of every function but [init]. *)
Lemma guards_when_uninitialized (st : State) :
  is_initialized_ (this st) = false ->
  (forall fw_ver, getFirmwareVersion env fw_ver st = (false, fw_ver, st)) /\
  (forall mac_addr, getMacAddress env mac_addr st = (false, mac_addr, st)) /\
  (forall scan_time, scanAccessPoints env scan_time st = (false, st)) /\
  (forall ap_info, getNextAccessPoint env ap_info st = (false, ap_info, st)) /\
  (forall fuel ssid security password timeout,
      connect env fuel ssid security password timeout st = Some (false, st)) /\
  disconnect env st = (false, st) /\
  (forall hostname ip, dnsLookup env hostname ip st = (false, ip, st)) /\
  (forall ip report attempts size timeout,
      ping env ip report attempts size timeout st = (false, report, st)) /\
  (forall info, getConnectionInfo info st = (false, info)).
Proof.
  intros Hi.
  unfold getFirmwareVersion, getMacAddress, scanAccessPoints, getNextAccessPoint,
    connect, disconnect, dnsLookup, ping, getConnectionInfo.
  rewrite Hi. simpl. repeat split.
Qed.

(** X2.  On an object that is not initialized every function but [init]
    and the two status getters answers [false] and leaves the object, the
    globals, the board and the caller's buffers as they are; nothing reaches
    the chip.  [getDHCPStatus] and [getConnectionStatus] have no such guard:
    they answer by their flag alone, [true] exactly when it is 1, on an
    object that is not initialized as on any other. *)
Theorem uninitialized_refuses (st : State) :
  is_initialized_ (this st) = false ->
  (forall fw_ver, getFirmwareVersion env fw_ver st = (false, fw_ver, st)) /\
  (forall mac_addr, getMacAddress env mac_addr st = (false, mac_addr, st)) /\
  (forall scan_time, scanAccessPoints env scan_time st = (false, st)) /\
  (forall ap_info, getNextAccessPoint env ap_info st = (false, ap_info, st)) /\
  (forall fuel ssid security password timeout,
      connect env fuel ssid security password timeout st = Some (false, st)) /\
  disconnect env st = (false, st) /\
  (forall hostname ip, dnsLookup env hostname ip st = (false, ip, st)) /\
  (forall ip report attempts size timeout,
      ping env ip report attempts size timeout st = (false, report, st)) /\
  (forall info, getConnectionInfo info st = (false, info)) /\
  (getDHCPStatus st = true <-> ulCC3000DHCP (reg st) = 1) /\
  (getConnectionStatus st = true <-> ulCC3000Connected (reg st) = 1).
Proof.
  intros Hi.
  destruct (guards_when_uninitialized st Hi)
    as (H1 & H2 & H3 & H4 & H5 & H6 & H7 & H8 & H9).
  refine (conj H1 (conj H2 (conj H3 (conj H4 (conj H5 (conj H6 (conj H7 (conj H8
            (conj H9 (conj _ _)))))))))).
  - unfold getDHCPStatus. apply Z.eqb_eq.
  - unfold getConnectionStatus. apply Z.eqb_eq.
Qed.

(** X3.  [dnsLookup], [ping] and [getConnectionInfo] want both status flags
    at 1: with either of them at another value they answer [false], send
    nothing and hand the caller's buffer back unchanged. *)
Theorem link_down_refuses (st : State) :
  ulCC3000Connected (reg st) <> 1 \/ ulCC3000DHCP (reg st) <> 1 ->
  (forall hostname ip, dnsLookup env hostname ip st = (false, ip, st)) /\
  (forall ip report attempts size timeout,
      ping env ip report attempts size timeout st = (false, report, st)) /\
  (forall info, getConnectionInfo info st = (false, info)).
Proof.
  intros Hdown.
  assert (Hflags : getConnectionStatus st && getDHCPStatus st = false).
  { unfold getConnectionStatus, getDHCPStatus. apply andb_false_iff.
    rewrite !Z.eqb_neq. exact Hdown. }
  unfold dnsLookup, ping, getConnectionInfo.
  destruct (is_initialized_ (this st)); simpl; [| repeat split].
  destruct (getConnectionStatus st); simpl; [| repeat split].
  simpl in Hflags. rewrite Hflags. simpl. repeat split.
Qed.

(** X4.  [dnsLookup] answers [true] exactly when the object is initialized,
    both flags are 1 and [gethostbyname] returns something other than zero;
    the sign of that value plays no part. *)
Theorem dnsLookup_true_iff hostname (ip : IPAddr.t) (st : State) :
  fst (fst (dnsLookup env hostname ip st)) = true <->
  is_initialized_ (this st) = true /\
  ulCC3000Connected (reg st) = 1 /\
  ulCC3000DHCP (reg st) = 1 /\
  env_status env (tick (board st)) (GetHostByName hostname (strlen hostname)) <> 0.
Proof.
  unfold dnsLookup, getConnectionStatus, getDHCPStatus.
  destruct (is_initialized_ (this st)); simpl; [| intuition discriminate].
  destruct (Z.eqb_spec (ulCC3000Connected (reg st)) 1); simpl; [| intuition discriminate].
  destruct (Z.eqb_spec (ulCC3000DHCP (reg st)) 1); simpl; [| intuition discriminate].
  destruct (Z.eqb_spec (env_status env (tick (board st))
                                   (GetHostByName hostname (strlen hostname))) 0);
    simpl; intuition (try discriminate; try congruence).
Qed.

(** *** Who writes what *)

Lemma irqs_app (n k1 k2 : nat) (r : Registry) :
  irqs env n (k1 + k2) r = irqs env (n + k1) k2 (irqs env n k1 r).
Proof.
  revert n r. induction k1 as [| k1 IH]; intros n r; simpl.
  - by rewrite Nat.add_0_r.
  - rewrite IH. by replace (S n + k1)%nat with (n + S k1)%nat by lia.
Qed.

Lemma slices_time_app (n k1 k2 : nat) :
  slices_time env n (k1 + k2) = slices_time env n k1 + slices_time env (n + k1) k2.
Proof.
  revert n. induction k1 as [| k1 IH]; intros n; simpl.
  - by rewrite Nat.add_0_r.
  - rewrite IH. replace (S n + k1)%nat with (n + S k1)%nat by lia. lia.
Qed.

Lemma passes_refl (st : State) : passes env st st.
Proof. exists 0%nat. simpl. repeat split; [lia | lia]. Qed.

Lemma passes_trans (st1 st2 st3 : State) :
  passes env st1 st2 -> passes env st2 st3 -> passes env st1 st3.
Proof.
  intros (k1 & Ht1 & Hr1 & Hc1) (k2 & Ht2 & Hr2 & Hc2).
  exists (k1 + k2)%nat. rewrite Ht1 in *. repeat split.
  - lia.
  - by rewrite irqs_app, <- Hr1.
  - rewrite slices_time_app. lia.
Qed.

(** Changes to the object, the pins or the log take no time. *)
Lemma passes_still (st st' : State) :
  reg st' = reg st -> tick (board st') = tick (board st) ->
  clock (board st') = clock (board st) -> passes env st st'.
Proof. intros Hr Ht Hc. exists 0%nat. simpl. repeat split; [lia | done | lia]. Qed.

Lemma passes_slice ms (st : State) : 0 <= ms -> passes env st (slice env ms st).
Proof. intros Hms. exists 1%nat. simpl. repeat split; lia. Qed.


Lemma passes_fetch who (st : State) :
  passes env st (snd (wlan_ioctl_get_scan_results env who st)).
Proof. exists 1%nat. simpl. repeat split; lia. Qed.


Lemma passes_scanAccessPoints scan_time (st : State) :
  passes env st (snd (scanAccessPoints env scan_time st)).
Proof.
  pose proof (u16_range (scan_time + 500)) as Hw.
  unfold scanAccessPoints.
  destruct (negb (is_initialized_ (this st))); [apply passes_refl |].
  simpl. destruct (negb (succeeded _)); simpl; [exists 1%nat; simpl; repeat split; lia |].
  destruct (negb (succeeded _)); simpl; [exists 3%nat; simpl; repeat split; lia |].
  destruct (negb (succeeded _)); simpl; exists 4%nat; simpl; repeat split; lia.
Qed.


Lemma passes_connect_loop fuel security ssid password timeout time (st st' : State) e :
  connect_loop env fuel security ssid password timeout time st = Some (e, st') ->
  passes env st st'.
Proof.
  revert st. induction fuel as [| fuel IH]; intros st; [discriminate |].
  rewrite connect_loop_round.
  destruct (getConnectionStatus st); [intros [= _ <-]; apply passes_refl |].
  destruct (wlan_connect_command env security ssid password (delay env 10 st))
    as (c & _ & ->).
  set (st2 := slice env 0 _).
  assert (H2 : passes env st st2) by (exists 2%nat; simpl; repeat split; lia).
  destruct (succeeded _); [by intros [= _ <-] |].
  destruct (timed_out timeout time st2); [by intros [= _ <-] |].
  intros Hrun. eapply passes_trans; [exact H2 | by apply IH].
Qed.

Lemma passes_dhcp_loop fuel timeout time (st st' : State) e :
  dhcp_loop env fuel timeout time st = Some (e, st') -> passes env st st'.
Proof.
  revert st. induction fuel as [| fuel IH]; intros st; simpl; [discriminate |].
  destruct (getDHCPStatus st); [intros [= _ <-]; apply passes_refl |].
  destruct (timed_out timeout time st); [intros [= _ <-]; apply passes_refl |].
  intros Hrun. eapply passes_trans; [apply (passes_slice 0); lia | by apply IH].
Qed.


(** The ways [connect] can end, with the states it goes through. *)
Lemma connect_cases fuel ssid security password timeout (st st' : State) ok :
  connect env fuel ssid security password timeout st = Some (ok, st') ->
  (ok = false /\ st' = st) \/
  (ok = false /\ st' = loop_entry env st /\
   succeeded (env_status env (tick (board st)) (SetConnectionPolicy 0 0 0)) = false) \/
  (exists e1 st1,
     connect_loop env fuel security ssid password timeout (millis (loop_entry env st))
                  (loop_entry env st) = Some (e1, st1) /\
     ((e1 = TimedOut /\ ok = false /\ st' = st1) \/
      (e1 = Proceed /\
       exists e2 st2,
         dhcp_loop env fuel timeout (millis (loop_entry env st)) st1 = Some (e2, st2) /\
         ((e2 = TimedOut /\ ok = false /\ st' = st2) \/
          (e2 = Proceed /\ ok = true /\ st' = netapp_ipconfig env st2))))).
Proof.
  unfold connect.
  destruct (negb (is_initialized_ (this st))); [intros [= <- <-]; by left |].
  destruct (getDHCPStatus st); [intros [= <- <-]; by left |].
  destruct (negb (valid_security security)); [intros [= <- <-]; by left |].
  change (command env in_connect (SetConnectionPolicy 0 0 0) st)
    with (env_status env (tick (board st)) (SetConnectionPolicy 0 0 0), loop_entry env st).
  cbv beta iota.
  destruct (succeeded _); simpl; [| intros [= <- <-]; right; left; done].
  destruct (connect_loop _ _ _ _ _ _ _ _) as [[[|] st1] |] eqn:H1; try discriminate.
  - destruct (dhcp_loop _ _ _ _ _) as [[[|] st2] |] eqn:H2; try discriminate;
      intros [= <- <-]; right; right; exists Proceed, st1; (split; [done |]);
      right; (split; [done |]).
    + exists Proceed, st2. split; [done |]. right. done.
    + exists TimedOut, st2. split; [done |]. left. done.
  - intros [= <- <-]. right; right. exists TimedOut, st1. split; [done |]. left. done.
Qed.



Lemma connect_loop_members fuel security ssid password timeout time (st st' : State) e :
  connect_loop env fuel security ssid password timeout time st = Some (e, st') ->
  this st' = this st /\ pins st' = pins st.
Proof.
  revert st. induction fuel as [| fuel IH]; intros st; [discriminate |].
  rewrite connect_loop_round.
  destruct (getConnectionStatus st); [by intros [= _ <-] |].
  destruct (wlan_connect_command env security ssid password (delay env 10 st))
    as (c & _ & ->).
  set (st2 := slice env 0 _).
  assert (H2 : this st2 = this st /\ pins st2 = pins st) by done.
  destruct (succeeded _); [by intros [= _ <-] |].
  destruct (timed_out timeout time st2); [by intros [= _ <-] |].
  intros Hrun. apply IH in Hrun. destruct Hrun, H2. split; congruence.
Qed.

Lemma dhcp_loop_members fuel timeout time (st st' : State) e :
  dhcp_loop env fuel timeout time st = Some (e, st') ->
  this st' = this st /\ pins st' = pins st.
Proof.
  revert st. induction fuel as [| fuel IH]; intros st; simpl; [discriminate |].
  destruct (getDHCPStatus st); [by intros [= _ <-] |].
  destruct (timed_out timeout time st); [by intros [= _ <-] |].
  intros Hrun. by apply IH in Hrun.
Qed.

(** [connect] writes one member, [connection_info_], and only on its way to
    [true]. *)
Lemma connect_members fuel ssid security password timeout (st st' : State) ok :
  connect env fuel ssid security password timeout st = Some (ok, st') ->
  pins st' = pins st /\
  is_initialized_ (this st') = is_initialized_ (this st) /\
  num_access_points_ (this st') = num_access_points_ (this st) /\
  access_point_count_ (this st') = access_point_count_ (this st) /\
  ap_scan_result_ (this st') = ap_scan_result_ (this st) /\
  (ok = false -> connection_info_ (this st') = connection_info_ (this st)).
Proof.
  intros Hrun.
  destruct (connect_cases _ _ _ _ _ _ _ _ Hrun)
    as [[_ ->] | [(_ & -> & _) | (e1 & st1 & H1 & Hrest)]]; [done | done |].
  apply connect_loop_members in H1. destruct H1 as [Hthis1 Hpins1].
  change (this (loop_entry env st)) with (this st) in Hthis1.
  change (pins (loop_entry env st)) with (pins st) in Hpins1.
  destruct Hrest as [(_ & _ & ->) | (_ & e2 & st2 & H2 & Hrest)].
  - rewrite Hthis1, Hpins1. done.
  - apply dhcp_loop_members in H2. destruct H2 as [Hthis2 Hpins2].
    destruct Hrest as [(_ & _ & ->) | (_ & -> & ->)].
    + rewrite Hthis2, Hpins2, Hthis1, Hpins1. done.
    + simpl. rewrite Hthis2, Hpins2, Hthis1, Hpins1. repeat split. discriminate.
Qed.

(** What a call can change of the object and the pins. *)
Lemma members_frame (c : Call) (st st' : State) :
  after env c st = Some st' ->
  (is_initialized_ (this st') = is_initialized_ (this st) \/
   (c = call_init /\ is_initialized_ (this st') = true)) /\
  (pins st' = pins st \/ c = call_init) /\
  ((num_access_points_ (this st') = num_access_points_ (this st) /\
    access_point_count_ (this st') = access_point_count_ (this st) /\
    ap_scan_result_ (this st') = ap_scan_result_ (this st)) \/
   (exists scan_time, c = call_scanAccessPoints scan_time) \/
   (exists ap_info, c = call_getNextAccessPoint ap_info)) /\
  (connection_info_ (this st') = connection_info_ (this st) \/
   exists fuel ssid security password timeout,
     c = call_connect fuel ssid security password timeout /\
     connect env fuel ssid security password timeout st = Some (true, st')).
Proof.
  destruct c; simpl.
  - intros [= <-]. unfold init.
    destruct (is_initialized_ (this st)) eqn:Hi; [rewrite ?Hi; by auto 10 |].
    destruct (negb AVR_ATMEGA); [rewrite ?Hi; by auto 10 |].
    destruct (interrupt_of_pin _); [| rewrite ?Hi; by auto 10].
    simpl. by auto 10.
  - intros [= <-]. unfold getFirmwareVersion.
    destruct (negb (is_initialized_ (this st))); [by auto 10 |].
    simpl. destruct (negb (succeeded _)); simpl; by auto 10.
  - intros [= <-]. unfold getMacAddress.
    destruct (negb (is_initialized_ (this st))); [by auto 10 |].
    simpl. destruct (negb (succeeded _)); simpl; by auto 10.
  - intros [= <-]. unfold scanAccessPoints.
    destruct (negb (is_initialized_ (this st))); [by eauto 10 |].
    simpl. destruct (negb (succeeded _)); simpl; [by eauto 10 |].
    destruct (negb (succeeded _)); simpl; [by eauto 10 |].
    destruct (negb (succeeded _)); simpl; by eauto 10.
  - intros [= <-]. unfold getNextAccessPoint.
    destruct (negb (is_initialized_ (this st))); [by eauto 10 |].
    destruct (_ =? 0); [by eauto 10 |].
    destruct (_ <=? _); [by eauto 10 |].
    simpl. destruct (negb (succeeded _)); simpl; by eauto 10.
  - destruct (connect _ _ _ _ _ _ _) as [[ok st2] |] eqn:Hrun; [| discriminate].
    intros [= <-]. simpl.
    destruct (connect_members _ _ _ _ _ _ _ _ Hrun) as (Hp & Hi & Hn & Hc & Hb & Hinfo).
    repeat split; try (left; done).
    destruct ok; [right; by eauto 10 | left; by apply Hinfo].
  - intros [= <-]. unfold disconnect.
    destruct (negb (is_initialized_ (this st))); [by auto 10 |].
    simpl. destruct (succeeded _); simpl; by auto 10.
  - intros [= <-]. unfold dnsLookup.
    destruct (negb (is_initialized_ (this st))); [by auto 10 |].
    destruct (negb (getConnectionStatus st)); [by auto 10 |].
    destruct (negb (getDHCPStatus st)); [by auto 10 |].
    simpl. destruct (_ =? 0); simpl; by auto 10.
  - intros [= <-]. unfold ping.
    destruct (negb (is_initialized_ (this st))); [by auto 10 |].
    destruct (negb (getConnectionStatus st)); [by auto 10 |].
    destruct (negb (getDHCPStatus st)); [by auto 10 |].
    simpl. destruct (negb (succeeded _)); simpl; by auto 10.
  - intros [= <-]. by auto 10.
  - intros [= <-]. simpl. by auto 10.
Qed.

(** X6.  Every member has its writers.  Across any call, [is_initialized_]
    and the pin globals change only in [init] (which can only set the flag),
    the scan counters and the result buffer only in [scanAccessPoints] and
    [getNextAccessPoint], and [connection_info_] only in a [connect] that
    answers [true]: a later [disconnect] or a lost link leaves the snapshot
    in place. *)
Theorem members_have_writers (c : Call) (st st' : State) :
  after env c st = Some st' ->
  (is_initialized_ (this st') = is_initialized_ (this st) \/
   (c = call_init /\ is_initialized_ (this st') = true)) /\
  (pins st' = pins st \/ c = call_init) /\
  ((num_access_points_ (this st') = num_access_points_ (this st) /\
    access_point_count_ (this st') = access_point_count_ (this st) /\
    ap_scan_result_ (this st') = ap_scan_result_ (this st)) \/
   (exists scan_time, c = call_scanAccessPoints scan_time) \/
   (exists ap_info, c = call_getNextAccessPoint ap_info)) /\
  (connection_info_ (this st') = connection_info_ (this st) \/
   exists fuel ssid security password timeout,
     c = call_connect fuel ssid security password timeout /\
     connect env fuel ssid security password timeout st = Some (true, st')).
Proof. exact (members_frame c st st'). Qed.

(** X7.  Until [init] has succeeded the driver does nothing to the board:
    in every state of an object that is not initialized the log is empty,
    whatever was called on it. *)
Theorem nothing_before_init (st : State) :
  reachable env st -> is_initialized_ (this st) = false -> trace (board st) = [].
Proof.
  induction 1 as [int_pin en_pin cs_pin raw Hraw | c st st' _ IH Hstep]; intros Hoff.
  - exact Hraw.
  - destruct (is_initialized_ (this st)) eqn:Hi.
    + destruct (members_frame c st st' Hstep) as ([Hsame | [_ Hon]] & _);
        congruence.
    + specialize (IH eq_refl).
      destruct (guards_when_uninitialized st Hi)
        as (Hfw & Hmac & Hscan & Hnext & Hconn & Hdisc & Hdns & Hping & _).
      destruct c; simpl in Hstep.
      * injection Hstep as <-. revert Hoff. unfold init. rewrite Hi.
        destruct (negb AVR_ATMEGA); [done |].
        destruct (interrupt_of_pin _); [discriminate | done].
      * rewrite Hfw in Hstep. by injection Hstep as <-.
      * rewrite Hmac in Hstep. by injection Hstep as <-.
      * rewrite Hscan in Hstep. by injection Hstep as <-.
      * rewrite Hnext in Hstep. by injection Hstep as <-.
      * rewrite Hconn in Hstep. by injection Hstep as <-.
      * rewrite Hdisc in Hstep. by injection Hstep as <-.
      * rewrite Hdns in Hstep. by injection Hstep as <-.
      * rewrite Hping in Hstep. by injection Hstep as <-.
      * by injection Hstep as <-.
      * by injection Hstep as <-.
Qed.

(** *** [connect]: more on its loops *)

Lemma slices_time_nonneg (n k : nat) : 0 <= slices_time env n k.
Proof. revert n. induction k as [| k IH]; intros n; simpl; [lia |]. specialize (IH (S n)). lia. Qed.

Lemma passes_clock (st st' : State) :
  passes env st st' -> clock (board st) <= clock (board st').
Proof.
  intros (k & _ & _ & Hc). pose proof (slices_time_nonneg (tick (board st)) k). lia.
Qed.

Lemma connect_loop_timed_out fuel security ssid password timeout time (st st' : State) :
  connect_loop env fuel security ssid password timeout time st = Some (TimedOut, st') ->
  timed_out timeout time st' = true.
Proof.
  revert st. induction fuel as [| fuel IH]; intros st; [discriminate |].
  rewrite connect_loop_round.
  destruct (getConnectionStatus st); [discriminate |].
  destruct (wlan_connect_command env security ssid password (delay env 10 st))
    as (c & _ & ->).
  set (st2 := slice env 0 _).
  destruct (succeeded _); [discriminate |].
  destruct (timed_out timeout time st2) eqn:Hout;
    [intros [= Heq]; by rewrite <- Heq | apply IH].
Qed.

Lemma dhcp_loop_timed_out fuel timeout time (st st' : State) :
  dhcp_loop env fuel timeout time st = Some (TimedOut, st') ->
  timed_out timeout time st' = true.
Proof.
  revert st. induction fuel as [| fuel IH]; intros st; simpl; [discriminate |].
  destruct (getDHCPStatus st); [discriminate |].
  destruct (timed_out timeout time st) eqn:Hout;
    [intros [= Heq]; by rewrite <- Heq | apply IH].
Qed.

(** The timeout test fires only when the timeout is not 0 and more than that
    many milliseconds went by since [start]. *)
Lemma timed_out_late timeout (start st : State) :
  clock (board start) <= clock (board st) ->
  timed_out timeout (millis start) st = true ->
  timeout <> 0 /\ timeout < clock (board st) - clock (board start).
Proof.
  intros Hmono. unfold timed_out, millis, u32.
  rewrite <- Zminus_mod. intros H. apply andb_true_iff in H. destruct H as [Hnz Hlt].
  apply negb_true_iff, Z.eqb_neq in Hnz. apply Z.ltb_lt in Hlt.
  split; [exact Hnz |].
  pose proof (Z.mod_le (clock (board st) - clock (board start)) (2 ^ 32)
                       ltac:(lia) ltac:(lia)). lia.
Qed.

(** X8.  [connect] never gives up early.  When it answers [false], either a
    guard refused the call and nothing happened, or the chip rejected the
    connection policy, or the timeout is not 0 and strictly more than that
    many milliseconds have gone by since the retry loop was entered.  With
    a timeout of 0 the two loops never answer [false]. *)
Theorem connect_false_means (fuel : nat) ssid security password timeout (st st' : State) :
  connect env fuel ssid security password timeout st = Some (false, st') ->
  st' = st \/
  (st' = loop_entry env st /\
   env_status env (tick (board st)) (SetConnectionPolicy 0 0 0) <> CC3000_SUCCESS) \/
  (timeout <> 0 /\ timeout < clock (board st') - clock (board (loop_entry env st))).
Proof.
  intros Hrun.
  destruct (connect_cases _ _ _ _ _ _ _ _ Hrun)
    as [[_ ->] | [(_ & -> & Hpol) | (e1 & st1 & H1 & Hrest)]].
  - by left.
  - right; left. split; [done | by apply succeeded_false].
  - right; right.
    pose proof (passes_clock _ _ (passes_connect_loop _ _ _ _ _ _ _ _ _ H1)) as Hc1.
    destruct Hrest as [(-> & _ & ->) | (_ & e2 & st2 & H2 & Hrest)].
    + apply connect_loop_timed_out in H1. by apply timed_out_late.
    + pose proof (passes_clock _ _ (passes_dhcp_loop _ _ _ _ _ _ H2)) as Hc2.
      destruct Hrest as [(-> & _ & ->) | (_ & ? & _)]; [| discriminate].
      apply dhcp_loop_timed_out in H2. apply timed_out_late; [lia | exact H2].
Qed.

Section Unanswered.

Variables (security : Z) (ssid password : string).

(** X9.  A timeout of 0 means no timeout: facing a chip that never raises the
    connected flag and rejects every connection attempt, [connect] is still
    in its retry loop after any number of rounds. *)
Theorem connect_without_timeout_hangs (fuel : nat) (st : State) :
  (forall n r, ulCC3000Connected r <> 1 -> ulCC3000Connected (env_irq env n r) <> 1) ->
  (forall n sec s l k kl, env_status env n (WlanConnect sec s l k kl) <> CC3000_SUCCESS) ->
  is_initialized_ (this st) = true ->
  ulCC3000DHCP (reg st) <> 1 ->
  valid_security security = true ->
  env_status env (tick (board st)) (SetConnectionPolicy 0 0 0) = CC3000_SUCCESS ->
  ulCC3000Connected (reg st) <> 1 ->
  connect env fuel ssid security password 0 st = None.
Proof.
  intros never_connected always_rejected Hi Hd Hv Hpol Hc.
  assert (Hloop : forall time st0, ulCC3000Connected (reg st0) <> 1 ->
                    connect_loop env fuel security ssid password 0 time st0 = None).
  { intros time. induction fuel as [| f IH]; intros st0 Hc0; [reflexivity |].
    rewrite connect_loop_round. unfold getConnectionStatus.
    destruct (Z.eqb_spec (ulCC3000Connected (reg st0)) 1) as [| _]; [contradiction |].
    destruct (wlan_connect_command env security ssid password (delay env 10 st0))
      as (c & (sec & s & l & k & kl & ->) & ->).
    pose proof (always_rejected (tick (board (delay env 10 st0))) sec s l k kl) as Hrej.
    apply succeeded_false in Hrej. rewrite Hrej.
    unfold timed_out at 1. rewrite Z.eqb_refl. cbn [negb andb].
    apply IH. by do 2 apply never_connected. }
  unfold connect. rewrite Hi. simpl.
  apply Z.eqb_neq in Hd. unfold getDHCPStatus. rewrite Hd, Hv. simpl.
  apply succeeded_true in Hpol. rewrite Hpol. simpl.
  rewrite Hloop; [reflexivity |]. simpl. by apply never_connected.
Qed.

Variables (d T : Z).
Hypothesis T_pos : 0 < T.
Hypothesis no_wrap : T + 10 + 2 * d < 2 ^ 32.
Hypothesis slice_time : forall n, 1 <= Z.of_nat (env_elapsed env n) <= d.
Hypothesis never_leased :
  forall n r, ulCC3000DHCP r <> 1 -> ulCC3000DHCP (env_irq env n r) <> 1.

(** The retry loop ends within a round of the deadline, however the chip
    answers. *)
Lemma connect_loop_ends (t0 : Z) (fuel : nat) (st : State) :
  ulCC3000DHCP (reg st) <> 1 ->
  0 <= clock (board st) - t0 <= T ->
  T - (clock (board st) - t0) < 10 * Z.of_nat fuel ->
  exists e st',
    connect_loop env fuel security ssid password T (u32 t0) st = Some (e, st') /\
    ulCC3000DHCP (reg st') <> 1 /\
    0 <= clock (board st') - t0 <= T + 10 + 2 * d.
Proof.
  revert st. induction fuel as [| fuel IH]; intros st Hd Hin Hfuel; [lia |].
  rewrite connect_loop_round.
  pose proof (slice_time (tick (board st))) as B1.
  pose proof (slice_time (S (tick (board st)))) as B2.
  destruct (getConnectionStatus st); [exists Proceed, st; repeat split; [done | lia | lia] |].
  destruct (wlan_connect_command env security ssid password (delay env 10 st))
    as (c & _ & ->).
  set (st2 := slice env 0 _).
  assert (Hclock : clock (board st2) =
                   clock (board st) + 10 + Z.of_nat (env_elapsed env (tick (board st)))
                   + 0 + Z.of_nat (env_elapsed env (S (tick (board st)))))
    by reflexivity.
  assert (Hreg : ulCC3000DHCP (reg st2) <> 1) by (by do 2 apply never_leased).
  destruct (succeeded _); [exists Proceed, st2; repeat split; [done | lia | lia] |].
  destruct (timed_out T (u32 t0) st2) eqn:Hout;
    [exists TimedOut, st2; repeat split; [done | lia | lia] |].
  apply IH; [exact Hreg | | lia].
  unfold timed_out, millis in Hout. rewrite u32_elapsed in Hout by lia.
  destruct (Z.eqb_spec T 0) as [| _]; [lia |]. cbn [negb andb] in Hout.
  apply Z.ltb_ge in Hout. lia.
Qed.

(** Without a lease the wait for DHCP ends by its timeout test, at most one
    slice after the deadline. *)
Lemma dhcp_loop_ends (t0 : Z) (fuel : nat) (st : State) :
  ulCC3000DHCP (reg st) <> 1 ->
  0 <= clock (board st) - t0 <= T + 10 + 2 * d ->
  Z.max 0 (T + 1 - (clock (board st) - t0)) < Z.of_nat fuel ->
  exists st',
    dhcp_loop env fuel T (u32 t0) st = Some (TimedOut, st') /\
    0 <= clock (board st') - t0 <= T + 10 + 2 * d.
Proof.
  revert st. induction fuel as [| fuel IH]; intros st Hd Hin Hfuel; [lia |].
  simpl. unfold getDHCPStatus.
  destruct (Z.eqb_spec (ulCC3000DHCP (reg st)) 1) as [| _]; [contradiction |].
  unfold timed_out at 1. unfold millis. rewrite u32_elapsed by lia.
  destruct (Z.eqb_spec T 0) as [| _]; [lia |]. cbn [negb andb].
  destruct (Z.ltb_spec T (clock (board st) - t0)) as [Hlate | Hearly].
  - exists st. split; [reflexivity | lia].
  - pose proof (slice_time (tick (board st))) as B.
    apply IH.
    + by apply never_leased.
    + simpl. lia.
    + simpl. lia.
Qed.

(** X10.  With a timeout of [T > 0] and no lease ever announced, [connect]
    returns and answers [false], however the chip treats the connection
    attempts, no later than [T] milliseconds plus one round of the retry loop
    after it entered the loop; the wait for DHCP runs against the same
    deadline as the retries.  Every slice is taken to last between 1 and [d]
    milliseconds, so that the clock moves between two polls. *)
Theorem connect_gives_up_without_lease (fuel : nat) (st : State) :
  ulCC3000DHCP (reg st) <> 1 ->
  (Z.to_nat T + 1 < fuel)%nat ->
  exists st',
    connect env fuel ssid security password T st = Some (false, st') /\
    clock (board st') <= clock (board (loop_entry env st)) + T + 10 + 2 * d.
Proof.
  intros Hd Hfuel.
  pose proof (slice_time (tick (board st))) as B0.
  assert (Hentry : clock (board (loop_entry env st)) =
                   clock (board st) + 0 + Z.of_nat (env_elapsed env (tick (board st))))
    by reflexivity.
  unfold connect.
  destruct (negb (is_initialized_ (this st))); [exists st; split; [done | lia] |].
  destruct (getDHCPStatus st); [exists st; split; [done | lia] |].
  destruct (negb (valid_security security)); [exists st; split; [done | lia] |].
  change (command env in_connect (SetConnectionPolicy 0 0 0) st)
    with (env_status env (tick (board st)) (SetConnectionPolicy 0 0 0), loop_entry env st).
  cbv beta iota.
  destruct (negb (succeeded _)); [exists (loop_entry env st); split; [done | lia] |].
  destruct (connect_loop_ends (clock (board (loop_entry env st))) fuel (loop_entry env st))
    as (e1 & st1 & H1 & Hd1 & Hc1).
  - change (reg (loop_entry env st)) with (env_irq env (tick (board st)) (reg st)).
    by apply never_leased.
  - lia.
  - lia.
  - unfold millis. rewrite H1. destruct e1; [| exists st1; split; [done | lia]].
    destruct (dhcp_loop_ends (clock (board (loop_entry env st))) fuel st1)
      as (st2 & H2 & Hc2); [exact Hd1 | lia | lia |].
    rewrite H2. exists st2. split; [done | lia].
Qed.

End Unanswered.

(** *** [ping] *)

Lemma lor_shiftl_add (a b k : Z) :
  0 <= k -> 0 <= a < 2 ^ k -> Z.lor a (Z.shiftl b k) = a + b * 2 ^ k.
Proof.
  intros Hk Ha.
  assert (Hdisjoint : Z.land a (Z.shiftl b k) = 0).
  { apply Z.bits_inj'. intros n Hn. rewrite Z.land_spec, Z.bits_0.
    destruct (Z.lt_ge_cases n k) as [Hlow | Hhigh].
    - rewrite Z.shiftl_spec_low by exact Hlow. apply andb_false_r.
    - rewrite <- (Z.mod_small a (2 ^ k)) by exact Ha.
      rewrite Z.mod_pow2_bits_high by lia. reflexivity. }
  rewrite <- Z.lxor_lor by exact Hdisjoint.
  rewrite <- Z.add_nocarry_lxor by exact Hdisjoint.
  by rewrite Z.shiftl_mul_pow2.
Qed.

(** The address [ping] builds from four bytes: the first byte is the least
    significant. *)
Lemma ping_address_packed (b0 b1 b2 b3 : Z) :
  0 <= b0 < 256 -> 0 <= b1 < 256 -> 0 <= b2 < 256 -> 0 <= b3 < 256 ->
  u32 (Z.lor (Z.lor (Z.lor b0 (Z.shiftl b1 8)) (Z.shiftl b2 16)) (Z.shiftl b3 24))
  = b0 + b1 * 2 ^ 8 + b2 * 2 ^ 16 + b3 * 2 ^ 24.
Proof.
  intros H0 H1 H2 H3.
  rewrite (lor_shiftl_add b0 b1 8) by lia.
  rewrite (lor_shiftl_add _ b2 16) by lia.
  rewrite (lor_shiftl_add _ b3 24) by lia.
  unfold u32. apply Z.mod_small. lia.
Qed.

Lemma u16_twice (x : Z) : u16 (u16 x * 2) = (2 * x) mod 2 ^ 16.
Proof. unfold u16. rewrite Z.mul_mod_idemp_l by lia. f_equal. lia. Qed.

(** The one command, the wait and the report of a [ping] that goes through. *)
Lemma ping_sends (b0 b1 b2 b3 : Z) ip (report report' : list Z)
        attempts size timeout (st st' : State) :
  IPAddr.address ip = [b0; b1; b2; b3] ->
  0 <= b0 < 256 -> 0 <= b1 < 256 -> 0 <= b2 < 256 -> 0 <= b3 < 256 ->
  ping env ip report attempts size timeout st = (true, report', st') ->
  trace (board st') =
    trace (board st) ++
    [Chip in_ping
          (NetappPingSend (b0 + b1 * 2 ^ 8 + b2 * 2 ^ 16 + b3 * 2 ^ 24) attempts size timeout)
          CC3000_SUCCESS] /\
  clock (board st') =
    clock (board st) + (2 * (timeout * attempts)) mod 2 ^ 16
    + slices_time env (tick (board st)) 2 /\
  reg st' = irqs env (tick (board st)) 2 (reg st) /\
  report' = take (length report) (g_ping_report (reg st')).
Proof.
  intros Hip H0 H1 H2 H3. unfold ping.
  destruct (negb (is_initialized_ (this st))); [discriminate |].
  destruct (negb (getConnectionStatus st)); [discriminate |].
  destruct (negb (getDHCPStatus st)); [discriminate |].
  rewrite Hip. unfold byte_at. cbn [nth].
  rewrite ping_address_packed by assumption.
  unfold command. cbv beta iota zeta.
  destruct (succeeded _) eqn:Hok; cbn [negb]; [| discriminate].
  apply succeeded_true in Hok. rewrite Hok.
  intros [= <- <-]. rewrite u16_twice. unfold memcpy. rewrite drop_all, app_nil_r.
  simpl. repeat split. lia.
Qed.

(** X11.  A [ping] that answers [true] sent one command carrying the four
    address bytes packed first byte lowest, waited for twice the product of
    timeout and attempts as a 16-bit [unsigned int] holds it, that is modulo
    65536, and handed out the ping report global as the callback had left it
    by the time of the return. *)
Theorem ping_true (b0 b1 b2 b3 : Z) ip (report report' : list Z)
        attempts size timeout (st st' : State) :
  IPAddr.address ip = [b0; b1; b2; b3] ->
  0 <= b0 < 256 -> 0 <= b1 < 256 -> 0 <= b2 < 256 -> 0 <= b3 < 256 ->
  ping env ip report attempts size timeout st = (true, report', st') ->
  trace (board st') =
    trace (board st) ++
    [Chip in_ping
          (NetappPingSend (b0 + b1 * 2 ^ 8 + b2 * 2 ^ 16 + b3 * 2 ^ 24) attempts size timeout)
          CC3000_SUCCESS] /\
  clock (board st') =
    clock (board st) + (2 * (timeout * attempts)) mod 2 ^ 16
    + slices_time env (tick (board st)) 2 /\
  reg st' = irqs env (tick (board st)) 2 (reg st) /\
  report' = take (length report) (g_ping_report (reg st')).
Proof. exact (ping_sends b0 b1 b2 b3 ip report report' attempts size timeout st st'). Qed.

(** *** [scanAccessPoints]: its answers *)

(** The three commands, the wait and the counters of a scan that goes through. *)
Lemma scanAccessPoints_true_state scan_time (st st' : State) :
  scanAccessPoints env scan_time st = (true, st') ->
  trace (board st') =
    trace (board st) ++
    [Chip in_scanAccessPoints (SetScanParams scan_time channel_timeouts) CC3000_SUCCESS;
     Chip in_scanAccessPoints (GetScanResults 0) CC3000_SUCCESS;
     Chip in_scanAccessPoints (SetScanParams 0 channel_timeouts) CC3000_SUCCESS] /\
  clock (board st') =
    clock (board st) + (scan_time + 500) mod 2 ^ 16 + slices_time env (tick (board st)) 4 /\
  ap_scan_result_ (this st') =
    env_scan env (S (S (tick (board st)))) (ap_scan_result_ (this st)) /\
  num_access_points_ (this st') =
    ScanResult.num_networks (ap_scan_result_ (this st')) mod 2 ^ 16 /\
  access_point_count_ (this st') = 0.
Proof.
  unfold scanAccessPoints.
  destruct (negb (is_initialized_ (this st))); [discriminate |].
  simpl. destruct (succeeded _) eqn:H1; simpl; [| discriminate].
  apply succeeded_true in H1. rewrite H1.
  destruct (succeeded _) eqn:H2; simpl; [| discriminate].
  apply succeeded_true in H2. rewrite H2.
  destruct (succeeded _) eqn:H3; simpl; [| discriminate].
  apply succeeded_true in H3. rewrite H3.
  intros [= <-]. simpl. rewrite <- !app_assoc. repeat split. unfold u16. lia.
Qed.


(** X13.  A [scanAccessPoints] that answers [false] on an initialized object
    failed at one of its three commands, and where tells what is left of the
    session.  Rejected at the start: the object is as it was, an earlier
    scan's records stay retrievable.  Failed at the fetch: count and total
    are 0 and [getNextAccessPoint] answers [false].  Rejected at the stop:
    count 0 and the new total are in place all the same. *)
Theorem scanAccessPoints_false_means scan_time (st st' : State) :
  is_initialized_ (this st) = true ->
  scanAccessPoints env scan_time st = (false, st') ->
  (env_status env (tick (board st)) (SetScanParams scan_time channel_timeouts)
     <> CC3000_SUCCESS /\
   this st' = this st) \/
  (env_status env (S (S (tick (board st)))) (GetScanResults 0) <> CC3000_SUCCESS /\
   num_access_points_ (this st') = 0 /\
   access_point_count_ (this st') = 0 /\
   forall ap_info, getNextAccessPoint env ap_info st' = (false, ap_info, st')) \/
  (env_status env (S (S (S (tick (board st))))) (SetScanParams 0 channel_timeouts)
     <> CC3000_SUCCESS /\
   num_access_points_ (this st') =
     ScanResult.num_networks (ap_scan_result_ (this st')) mod 2 ^ 16 /\
   access_point_count_ (this st') = 0).
Proof.
  intros Hi. unfold scanAccessPoints. rewrite Hi. simpl.
  destruct (succeeded (env_status env (tick (board st))
                                  (SetScanParams scan_time channel_timeouts))) eqn:H1; simpl.
  - destruct (succeeded (env_status env (S (S (tick (board st)))) (GetScanResults 0)))
      eqn:H2; simpl.
    + destruct (succeeded (env_status env (S (S (S (tick (board st)))))
                                      (SetScanParams 0 channel_timeouts))) eqn:H3;
        simpl; [discriminate |].
      intros [= <-]. right; right. apply succeeded_false in H3. done.
    + intros [= <-]. right; left. apply succeeded_false in H2.
      repeat split; try done.
      intros ap_info. unfold getNextAccessPoint. simpl. rewrite Hi. simpl.
      by destruct (_ =? 0).
  - intros [= <-]. left. apply succeeded_false in H1. done.
Qed.

(** *** [getConnectionInfo] *)

Lemma memcpy_whole (dst src : list Z) (n : nat) :
  length dst = n -> length src = n -> memcpy dst src n = src.
Proof.
  intros Hd Hs. unfold memcpy.
  rewrite take_ge by lia. rewrite drop_ge by lia. apply app_nil_r.
Qed.

(** X14.  When it answers [true], [getConnectionInfo] hands out the snapshot
    [connect] stored, each address and the MAC with its bytes in the opposite
    order and the SSID as it is; nothing of what the caller's struct held
    before survives. *)
Theorem getConnectionInfo_true_means (info info' : ConnectionInfo.t) (st : State) :
  ipconfig_shape (connection_info_ (this st)) ->
  info_shape info ->
  getConnectionInfo info st = (true, info') ->
  info' =
    ConnectionInfo.mk
      (reverse (Ipconfig.aucIP (connection_info_ (this st))))
      (reverse (Ipconfig.aucSubnetMask (connection_info_ (this st))))
      (reverse (Ipconfig.aucDefaultGateway (connection_info_ (this st))))
      (reverse (Ipconfig.aucDHCPServer (connection_info_ (this st))))
      (reverse (Ipconfig.aucDNSServer (connection_info_ (this st))))
      (reverse (Ipconfig.uaMacAddr (connection_info_ (this st))))
      (Ipconfig.uaSSID (connection_info_ (this st))).
Proof.
  intros (H1 & H2 & H3 & H4 & H5 & H6 & H7) (I1 & I2 & I3 & I4 & I5 & I6 & I7).
  unfold getConnectionInfo.
  destruct (negb (is_initialized_ (this st))); [discriminate |].
  destruct (negb (getConnectionStatus st)); [discriminate |].
  destruct (negb (getDHCPStatus st)); [discriminate |].
  intros [= <-].
  rewrite !reverse_copy_reverse by lia.
  by rewrite memcpy_whole.
Qed.

(** *** [getNextAccessPoint]: the SSID *)

(** X15.  The SSID [getNextAccessPoint] hands out is terminated at the
    length the record reports, in an array that keeps its size; and when the
    record's SSID holds no NUL within that length, the characters before the
    terminator are the record's. *)
Theorem getNextAccessPoint_ssid (ap_info ap_info' : AccessPointInfo.t) (st st' : State) :
  getNextAccessPoint env ap_info st = (true, ap_info', st') ->
  let r := ap_scan_result_ (this st) in
  let n := Z.to_nat (ScanResult.ssid_length r) in
  (n < length (AccessPointInfo.ssid ap_info))%nat ->
  length (AccessPointInfo.ssid ap_info') = length (AccessPointInfo.ssid ap_info) /\
  AccessPointInfo.ssid ap_info' !! n = Some 0 /\
  ((n <= length (ScanResult.ssid r))%nat ->
   Forall (fun c => c <> 0) (take n (ScanResult.ssid r)) ->
   take n (AccessPointInfo.ssid ap_info') = take n (ScanResult.ssid r)).
Proof.
  intros Hrun r n Hn.
  destruct (getNextAccessPoint_cases env ap_info st)
    as [[Hstop _] | (_ & _ & _ & ok & st1 & Hrun' & _)]; [congruence |].
  rewrite Hrun in Hrun'. injection Hrun' as _ -> _.
  unfold fill_ap_info. simpl. fold r. fold n.
  repeat split.
  - by rewrite length_insert, strncpy_length.
  - apply list_lookup_insert_eq. by rewrite strncpy_length.
  - intros Hs Hnz. rewrite strncpy_copies by (lia || done).
    rewrite insert_app_r_alt by (rewrite length_take; lia).
    rewrite take_app_le by (rewrite length_take; lia).
    rewrite take_take. f_equal. lia.
Qed.

(** *** From [dnsLookup] to [ping] *)

(** X16.  The address [dnsLookup] hands out, given to [ping], reaches the
    chip with its bytes in the opposite order to the value the resolver
    returned: [dnsLookup] writes the most significant byte first, [ping]
    reads the first byte as the least significant. *)
Theorem ping_after_dnsLookup hostname (ip ip' : IPAddr.t) (st st1 st2 st2' : State)
        (report report' : list Z) attempts size timeout :
  length (IPAddr.address ip) = 4%nat ->
  dnsLookup env hostname ip st = (true, ip', st1) ->
  ping env ip' report attempts size timeout st2 = (true, report', st2') ->
  trace (board st2') =
    trace (board st2) ++
    [Chip in_ping
          (NetappPingSend (bswap32 (u32 (env_host env (tick (board st)) 0)))
                          attempts size timeout)
          CC3000_SUCCESS].
Proof.
  intros Hlen Hdns Hping.
  set (a := u32 (env_host env (tick (board st)) 0)).
  assert (Hip : IPAddr.address ip' =
                [a / 2 ^ 24 mod 256; a / 2 ^ 16 mod 256; a / 2 ^ 8 mod 256; a / 2 ^ 0 mod 256]).
  { unfold dnsLookup in Hdns.
    destruct (negb (is_initialized_ (this st))); [discriminate |].
    destruct (negb (getConnectionStatus st)); [discriminate |].
    destruct (negb (getDHCPStatus st)); [discriminate |].
    simpl in Hdns. destruct (_ =? 0); [discriminate |].
    injection Hdns as <- _.
    rewrite fill_ip_address_bytes by exact Hlen.
    rewrite !byte_of_shift by lia.
    rewrite <- (byte_of_shift _ 0) by lia. by rewrite Z.shiftr_0_r. }
  destruct (ping_sends _ _ _ _ _ _ _ _ _ _ _ _ Hip
              ltac:(apply Z.mod_pos_bound; lia) ltac:(apply Z.mod_pos_bound; lia)
              ltac:(apply Z.mod_pos_bound; lia) ltac:(apply Z.mod_pos_bound; lia) Hping)
    as (Htrace & _).
  rewrite Htrace. unfold bswap32. do 4 f_equal.
  rewrite Z.pow_0_r, Z.div_1_r. lia.
Qed.

(** *** [connect] on a chip that is already associated *)

(** X17.  When the connected flag and the DHCP flag are both up by the time
    the connection policy is set, [connect] sends no connection attempt and
    polls once: it answers [true] after the policy command and the
    configuration query, with the chip's answer to the query as snapshot. *)
Theorem connect_when_associated fuel ssid security password timeout (st : State) :
  is_initialized_ (this st) = true ->
  ulCC3000DHCP (reg st) <> 1 ->
  valid_security security = true ->
  env_status env (tick (board st)) (SetConnectionPolicy 0 0 0) = CC3000_SUCCESS ->
  ulCC3000Connected (env_irq env (tick (board st)) (reg st)) = 1 ->
  ulCC3000DHCP (env_irq env (tick (board st)) (reg st)) = 1 ->
  (0 < fuel)%nat ->
  exists st',
    connect env fuel ssid security password timeout st = Some (true, st') /\
    trace (board st') =
      trace (board st) ++
      [Chip in_connect (SetConnectionPolicy 0 0 0) CC3000_SUCCESS; Hw NetappIpconfig] /\
    connection_info_ (this st') =
      env_ipconfig env (S (tick (board st))) (connection_info_ (this st)) /\
    tick (board st') = S (S (tick (board st))).
Proof.
  intros Hi Hd Hv Hpol Hconn Hdhcp Hfuel.
  destruct fuel as [| fuel]; [lia |].
  unfold connect. rewrite Hi. simpl.
  apply Z.eqb_neq in Hd. unfold getDHCPStatus at 1. rewrite Hd, Hv. simpl.
  rewrite Hpol. unfold succeeded at 1. rewrite Z.eqb_refl. simpl.
  unfold getConnectionStatus. simpl. rewrite Hconn. simpl.
  unfold getDHCPStatus. simpl. rewrite Hdhcp. simpl.
  eexists. split; [reflexivity |]. simpl. rewrite <- !app_assoc. repeat split.
Qed.

(** *** [disconnect], then [connect] *)

(** X18.  [disconnect] lowers no flag itself: it answers on the chip's
    acknowledgement alone.  After a [disconnect] that answered [true], as
    long as the callback has not cleared the DHCP flag, [connect] refuses at
    its guard and sends nothing. *)
Theorem reconnect_needs_the_event (st st1 : State) :
  disconnect env st = (true, st1) ->
  ulCC3000DHCP (env_irq env (tick (board st)) (reg st)) = 1 ->
  reg st1 = env_irq env (tick (board st)) (reg st) /\
  forall fuel ssid security password timeout,
    connect env fuel ssid security password timeout st1 = Some (false, st1).
Proof.
  unfold disconnect.
  destruct (is_initialized_ (this st)) eqn:Hi; simpl; [| discriminate].
  destruct (succeeded _); [| discriminate].
  intros [= <-] Hup. split; [reflexivity |].
  intros fuel ssid security password timeout.
  unfold connect, getDHCPStatus. simpl. rewrite Hi, Hup. reflexivity.
Qed.

(** *** From [scanAccessPoints] to [getNextAccessPoint] *)

(** X19.  The read-ahead at work.  After a scan that answered [true], a first
    [getNextAccessPoint] that answers [true] hands out the record the scan
    itself fetched, counts one, and leaves in the buffer the record of its
    own fetch, which a second call would hand out. *)
Theorem first_record_is_the_scans scan_time (ap_info ap_info' : AccessPointInfo.t)
        (st st1 st2 : State) :
  scanAccessPoints env scan_time st = (true, st1) ->
  getNextAccessPoint env ap_info st1 = (true, ap_info', st2) ->
  ap_info' =
    fill_ap_info (env_scan env (S (S (tick (board st)))) (ap_scan_result_ (this st)))
                 ap_info /\
  access_point_count_ (this st2) = 1 /\
  ap_scan_result_ (this st2) =
    env_scan env (S (S (S (S (tick (board st))))))
             (env_scan env (S (S (tick (board st)))) (ap_scan_result_ (this st))).
Proof.
  intros Hscan Hnext.
  assert (Htick : tick (board st1) = S (S (S (S (tick (board st)))))).
  { destruct (passes_scanAccessPoints scan_time st) as (k & Hk & _).
    revert Hscan Hk. unfold scanAccessPoints.
    destruct (negb (is_initialized_ (this st))); [discriminate |].
    simpl. destruct (negb (succeeded _)); simpl; [discriminate |].
    destruct (negb (succeeded _)); simpl; [discriminate |].
    destruct (negb (succeeded _)); simpl; [discriminate |].
    intros [= <-]. reflexivity. }
  destruct (scanAccessPoints_true_state _ _ _ Hscan) as (_ & _ & Hbuf & _ & Hcount).
  destruct (getNextAccessPoint_cases env ap_info st1)
    as [[Hstop _] | (_ & _ & _ & ok & st' & Hrun & _ & _ & _ & Hc & Hb & _)];
    [congruence |].
  rewrite Hnext in Hrun. injection Hrun as <- -> <-.
  rewrite Hb, Hc, Hbuf, Hcount, Htick. repeat split.
Qed.

End Behaviour.

(** ** That behaviour on the sample chips *)

Lemma init_outcome_witness :
  init (hdr := cc3000_header) quiet_chip (SFE_CC3000 5 7 10 power_on)
    = (false, SFE_CC3000 5 7 10 power_on) /\
  exists st',
    init (hdr := cc3000_header) quiet_chip (SFE_CC3000 3 7 10 power_on) = (true, st') /\
    g_int_num (pins st') = 1 /\ clock (board st') = 100.
Proof.
  split.
  - apply (init_outcome (hdr := cc3000_header) quiet_chip (SFE_CC3000 5 7 10 power_on)
                        eq_refl).
    right. split; discriminate.
  - destruct (proj2 (init_outcome (hdr := cc3000_header) quiet_chip
                                  (SFE_CC3000 3 7 10 power_on) eq_refl)
                    eq_refl (or_intror eq_refl))
      as (st' & Hrun & _ & Hpins & _ & _ & Hclock & _).
    exists st'. split; [exact Hrun |]. rewrite Hpins, Hclock. split; reflexivity.
Defined.

Lemma uninitialized_refuses_witness :
  let st := slice resolving_chip 0 (SFE_CC3000 2 7 10 power_on) in
  scanAccessPoints (hdr := cc3000_header) resolving_chip 4000 st = (false, st) /\
  disconnect (hdr := cc3000_header) resolving_chip st = (false, st) /\
  getDHCPStatus st = true /\
  getConnectionStatus st = true.
Proof.
  intros st.
  destruct (uninitialized_refuses (hdr := cc3000_header) resolving_chip st eq_refl)
    as (_ & _ & Hscan & _ & _ & Hdisc & _ & _ & _ & Hdhcp & Hconn).
  split; [apply Hscan |]. split; [exact Hdisc |].
  split; [apply Hdhcp | apply Hconn]; reflexivity.
Defined.

Lemma link_down_refuses_witness :
  dnsLookup quiet_chip "example.org" (IPAddr.mk [1; 2; 3; 4]) (ready quiet_chip)
    = (false, IPAddr.mk [1; 2; 3; 4], ready quiet_chip).
Proof.
  apply (link_down_refuses (hdr := cc3000_header) quiet_chip (ready quiet_chip)).
  left. simpl. discriminate.
Defined.


Lemma members_have_writers_witness :
  connection_info_ (this (snd (disconnect (hdr := cc3000_header) home_chip at_home)))
    = home_ipconfig.
Proof.
  destruct (members_have_writers (hdr := cc3000_header) home_chip call_disconnect at_home
                                 _ eq_refl)
    as (_ & _ & _ & [Hsame | (? & ? & ? & ? & ? & Hcall & _)]).
  - rewrite Hsame. reflexivity.
  - discriminate Hcall.
Defined.

Lemma nothing_before_init_witness :
  is_initialized_ (this wrong_pin) = false /\ trace (board wrong_pin) = [].
Proof.
  split; [reflexivity |].
  apply (nothing_before_init (hdr := cc3000_header) quiet_chip); [| reflexivity].
  apply (reach_call (hdr := cc3000_header) quiet_chip (call_scanAccessPoints 4000)
                    (snd (init (hdr := cc3000_header) quiet_chip
                               (SFE_CC3000 5 7 10 power_on)))); [| reflexivity].
  apply (reach_call (hdr := cc3000_header) quiet_chip call_init
                    (SFE_CC3000 5 7 10 power_on)); [| reflexivity].
  apply reach_new. reflexivity.
Defined.

Lemma connect_false_means_witness :
  exists st',
    connect (hdr := cc3000_header) rejecting_chip 6 "openNet" 0 EmptyString 50
            (ready rejecting_chip) = Some (false, st') /\
    (st' = ready rejecting_chip \/
     (st' = loop_entry rejecting_chip (ready rejecting_chip) /\
      env_status rejecting_chip (tick (board (ready rejecting_chip)))
                 (SetConnectionPolicy 0 0 0) <> CC3000_SUCCESS (Header := cc3000_header)) \/
     (50 <> 0 /\
      50 < clock (board st')
           - clock (board (loop_entry rejecting_chip (ready rejecting_chip))))).
Proof.
  destruct (connect (hdr := cc3000_header) rejecting_chip 6 "openNet" 0 EmptyString 50
                    (ready rejecting_chip)) as [[[|] st'] |] eqn:Hrun.
  - vm_compute in Hrun. discriminate.
  - exists st'. split; [reflexivity |].
    exact (connect_false_means (hdr := cc3000_header) _ _ _ _ _ _ _ _ Hrun).
  - vm_compute in Hrun. discriminate.
Defined.

Lemma connect_without_timeout_hangs_witness :
  connect (hdr := cc3000_header) rejecting_chip 200 "openNet" 0 EmptyString 0
          (ready rejecting_chip) = None.
Proof.
  apply (connect_without_timeout_hangs (hdr := cc3000_header) rejecting_chip).
  - intros n r H. exact H.
  - intros n sec s l k kl. simpl. discriminate.
  - reflexivity.
  - simpl. discriminate.
  - reflexivity.
  - reflexivity.
  - simpl. discriminate.
Defined.

Lemma connect_gives_up_without_lease_witness :
  exists st',
    connect (hdr := cc3000_header) no_lease_chip 30 "lab" 3 "secret" 20
            (ready no_lease_chip) = Some (false, st') /\
    clock (board st') <=
      clock (board (loop_entry no_lease_chip (ready no_lease_chip))) + 20 + 10 + 2 * 1.
Proof.
  apply (connect_gives_up_without_lease (hdr := cc3000_header) no_lease_chip
                                        3 "lab" "secret" 1 20).
  - lia.
  - lia.
  - intros n. simpl. lia.
  - intros n r H. exact H.
  - simpl. discriminate.
  - vm_compute. lia.
Defined.

(** Four pings of ten seconds each: the wait is 80000 - 65536 = 14464 ms. *)
Lemma ping_true_witness :
  let st := ready resolving_chip in
  let st' := snd (ping (hdr := cc3000_header) resolving_chip (IPAddr.mk [192; 168; 1; 10])
                       (replicate 20 7) 4 32 10000 st) in
  trace (board st') =
    trace (board st) ++
    [Chip in_ping (NetappPingSend (192 + 168 * 2 ^ 8 + 1 * 2 ^ 16 + 10 * 2 ^ 24) 4 32 10000)
          0] /\
  clock (board st') = clock (board st) + 14464 + 2.
Proof.
  intros st st'.
  destruct (ping_true (hdr := cc3000_header) resolving_chip 192 168 1 10
                      (IPAddr.mk [192; 168; 1; 10]) (replicate 20 7)
                      (replicate 20 0) 4 32 10000 st st' eq_refl
                      ltac:(lia) ltac:(lia) ltac:(lia) ltac:(lia) eq_refl)
    as (Htrace & Hclock & _).
  split; [exact Htrace | exact Hclock].
Defined.


Lemma scanAccessPoints_false_means_witness :
  let st := ready no_results_chip in
  let st' := snd (scanAccessPoints (hdr := cc3000_header) no_results_chip 4000 st) in
  num_access_points_ (this st') = 0 /\
  getNextAccessPoint (hdr := cc3000_header) no_results_chip blank_ap_info st'
    = (false, blank_ap_info, st').
Proof.
  intros st st'.
  destruct (scanAccessPoints_false_means (hdr := cc3000_header) no_results_chip
                                         4000 st st' eq_refl eq_refl)
    as [[Hrej _] | [(_ & Hnum & _ & Hnext) | (Hrej & _)]].
  - exfalso. apply Hrej. reflexivity.
  - split; [exact Hnum | apply Hnext].
  - exfalso. apply Hrej. reflexivity.
Defined.

Lemma getConnectionInfo_true_means_witness :
  snd (getConnectionInfo blank_info at_home) =
    ConnectionInfo.mk [192; 168; 1; 10] [255; 255; 255; 0] [192; 168; 1; 1] [192; 168; 1; 1]
                      [4; 4; 8; 8] [0; 17; 34; 51; 68; 85] ([108; 97; 98] ++ replicate 29 0).
Proof.
  apply (getConnectionInfo_true_means blank_info _ at_home).
  - repeat split.
  - repeat split.
  - reflexivity.
Defined.

Lemma getNextAccessPoint_ssid_witness :
  let st := snd (scanAccessPoints (hdr := cc3000_header) three_networks_chip 4000
                                  (ready three_networks_chip)) in
  let ap := snd (fst (getNextAccessPoint (hdr := cc3000_header) three_networks_chip
                                         blank_ap_info st)) in
  length (AccessPointInfo.ssid ap) = 33%nat /\
  AccessPointInfo.ssid ap !! 3%nat = Some 0 /\
  take 3 (AccessPointInfo.ssid ap) = [108; 97; 98].
Proof.
  intros st ap.
  destruct (getNextAccessPoint_ssid (hdr := cc3000_header) three_networks_chip
              blank_ap_info ap st
              (snd (getNextAccessPoint (hdr := cc3000_header) three_networks_chip
                                       blank_ap_info st))
              eq_refl ltac:(vm_compute; lia))
    as (Hlen & Hnul & Hcopy).
  split; [exact Hlen | split; [exact Hnul |]].
  apply Hcopy; [vm_compute; lia |].
  repeat constructor; discriminate.
Defined.

(** 192.168.1.10 resolved, then pinged: the command carries 0x0A01A8C0. *)
Lemma ping_after_dnsLookup_witness :
  let st := ready resolving_chip in
  let ip' := snd (fst (dnsLookup resolving_chip "example.org" (IPAddr.mk [0; 0; 0; 0]) st)) in
  let st1 := snd (dnsLookup resolving_chip "example.org" (IPAddr.mk [0; 0; 0; 0]) st) in
  trace (board (snd (ping (hdr := cc3000_header) resolving_chip ip' (replicate 20 0)
                          4 32 1000 st1))) =
    trace (board st1) ++ [Chip in_ping (NetappPingSend 167880896 4 32 1000) 0].
Proof.
  intros st ip' st1.
  exact (ping_after_dnsLookup (hdr := cc3000_header) resolving_chip "example.org"
           (IPAddr.mk [0; 0; 0; 0]) ip' st st1 st1
           (snd (ping (hdr := cc3000_header) resolving_chip ip' (replicate 20 0)
                      4 32 1000 st1))
           (replicate 20 0)
           (snd (fst (ping (hdr := cc3000_header) resolving_chip ip' (replicate 20 0)
                           4 32 1000 st1)))
           4 32 1000 eq_refl eq_refl eq_refl).
Defined.

Lemma connect_when_associated_witness :
  exists st',
    connect (hdr := cc3000_header) home_chip 1 "lab" 3 "secret" 5000 (ready home_chip)
      = Some (true, st') /\
    trace (board st') =
      trace (board (ready home_chip)) ++
      [Chip in_connect (SetConnectionPolicy 0 0 0) 0; Hw NetappIpconfig] /\
    connection_info_ (this st') = home_ipconfig /\
    tick (board st') = 4%nat.
Proof.
  apply (connect_when_associated (hdr := cc3000_header) home_chip 1 "lab" 3 "secret" 5000
                                 (ready home_chip)).
  - reflexivity.
  - simpl. discriminate.
  - reflexivity.
  - reflexivity.
  - reflexivity.
  - reflexivity.
  - lia.
Defined.

Lemma first_record_is_the_scans_witness :
  let st1 := snd (scanAccessPoints (hdr := cc3000_header) three_networks_chip 4000
                                   (ready three_networks_chip)) in
  let ap := snd (fst (getNextAccessPoint (hdr := cc3000_header) three_networks_chip
                                         blank_ap_info st1)) in
  let st2 := snd (getNextAccessPoint (hdr := cc3000_header) three_networks_chip
                                     blank_ap_info st1) in
  ap = fill_ap_info (hdr := cc3000_header) (lab_record 3 1) blank_ap_info /\
  access_point_count_ (this st2) = 1.
Proof.
  intros st1 ap st2.
  destruct (first_record_is_the_scans (hdr := cc3000_header) three_networks_chip 4000
              blank_ap_info ap (ready three_networks_chip) st1 st2 eq_refl eq_refl)
    as (Hap & Hcount & _).
  split; [exact Hap | exact Hcount].
Defined.

Lemma reconnect_needs_the_event_witness :
  fst (disconnect (hdr := cc3000_header) home_chip at_home) = true /\
  connect (hdr := cc3000_header) home_chip 5 "lab" 3 "secret" 5000
          (snd (disconnect (hdr := cc3000_header) home_chip at_home))
    = Some (false, snd (disconnect (hdr := cc3000_header) home_chip at_home)).
Proof.
  split; [reflexivity |].
  apply (reconnect_needs_the_event (hdr := cc3000_header) home_chip at_home);
    reflexivity.
Defined.
